(** * blockvae: the (conditional) gated PixelCNN graph builder of [layers.py]

    The Python module builds a Keras computation graph.  The development
    below embeds the builder as functions that produce a symbolic graph
    (one constructor per Keras layer used by the source), gives the graph
    its tensor semantics, and proves the properties of the construction:
    masking arithmetic, activation units, vertical feed, residual stacking,
    shapes and causality. *)

From Stdlib Require Import String List Arith Bool Lia ZArith DecimalString DecimalNat.
Import ListNotations.
Open Scope string_scope.
Open Scope list_scope.
Open Scope nat_scope.

(** ** Python helpers *)

(** [str(n)] for a non-negative integer. *)
Definition str (n : nat) : string := NilEmpty.string_of_uint (Nat.to_uint n).

(** [range(a, b)] *)
Definition range (a b : nat) : list nat := seq a (b - a).

(** ** Symbolic Keras tensors

    A Keras tensor remembers the layer that produced it and that layer's
    inputs; the graph is the term reachable from the output tensor. *)

Inductive activation : Type := relu.

(** The functions the source wraps in [Lambda] layers with one input. *)
Inductive lambda_fn : Type :=
| crop_right_fn            (* self._crop_right *)
| shift_down_fn            (* self._shift_down *)
| slice_f (n : nat)        (* lambda x: x[:,:,:,:self.nb_filters] *)
| slice_g (n : nat)        (* lambda x: x[:,:,:,self.nb_filters:] *)
| tanh_fn                  (* lambda x: K.tanh(x) *)
| sigmoid_fn.              (* lambda x: K.sigmoid(x) *)

(** Rank-2 tensors (batch, features): the latent vector and its projection. *)
Inductive Vector : Type :=
| InputVec (dim : nat) (name : string)
| Dense (units : nat) (name : string) (v : Vector).

(** Rank-4 tensors (batch, height, width, channels). *)
Inductive Tensor : Type :=
| Input (shape : nat * nat * nat) (name : string)
| Reshape (target_shape : nat * nat * nat) (name : string) (v : Vector)
| ZeroPadding2D (padding : (nat * nat) * (nat * nat)) (name : option string) (x : Tensor)
| Conv2D (filters : nat) (kernel_size : nat * nat) (act : option activation)
         (name : option string) (x : Tensor)
| Lambda (f : lambda_fn) (name : string) (x : Tensor)
| LambdaSum (name : string) (x0 x1 : Tensor)   (* Lambda(lambda x: x[0]+x[1]) *)
| Add (name : string) (a b : Tensor)
| Multiply (name : string) (a b : Tensor)
| Activation (act : activation) (name : string) (x : Tensor).

(** ** Tensor values and the semantics of the layers

    Scalars are kept abstract: the results below hold for any carrier
    (reals, floating-point numbers, integers) and any interpretation of
    the arithmetic and of the activation functions. *)

Class Scalar (T : Type) : Type := {
  zero : T;
  add : T -> T -> T;
  mul : T -> T -> T;
  tanh : T -> T;
  sigmoid : T -> T;
  relu_f : T -> T
}.

Section Semantics.

Context {T : Type} `{Scalar T}.

(** A feature map: shape (batch, height, width, channels) and its entries. *)
Record FeatureMap : Type := mkFM {
  batch : nat;
  height : nat;
  width : nat;
  channels : nat;
  val : nat -> nat -> nat -> nat -> T
}.

(** A rank-2 value: shape (batch, features). *)
Record Matrix : Type := mkMat {
  mbatch : nat;
  mdim : nat;
  mval : nat -> nat -> T
}.

(** The trainable parameters, per layer name. *)
Record Weights : Type := mkWeights {
  conv_kernel : option string -> nat -> nat -> nat -> nat -> T;
  conv_bias : option string -> nat -> T;
  dense_kernel : string -> nat -> nat -> T;
  dense_bias : string -> nat -> T
}.

Definition shape_of (x : FeatureMap) : nat * nat * nat * nat :=
  (batch x, height x, width x, channels x).

Fixpoint sum_upto (n : nat) (f : nat -> T) : T :=
  match n with
  | 0 => zero
  | S m => add (sum_upto m f) (f m)
  end.

Definition apply_act (a : option activation) (v : T) : T :=
  match a with
  | Some relu => relu_f v
  | None => v
  end.

(** [ZeroPadding2D(padding=((top, bottom), (left, right)))] *)
Definition zero_padding2d (padding : (nat * nat) * (nat * nat)) (x : FeatureMap)
  : FeatureMap :=
  let '((ptop, pbottom), (pleft, pright)) := padding in
  mkFM (batch x) (ptop + height x + pbottom) (pleft + width x + pright) (channels x)
    (fun n r c k =>
       if (ptop <=? r) && (r <? ptop + height x) && (pleft <=? c) && (c <? pleft + width x)
       then val x n (r - ptop) (c - pleft) k
       else zero).

(** [Conv2D(filters, (kh, kw), padding='valid')]: Keras refuses a layer
    without filters, a kernel with a side of 0, and a kernel that does not
    fit in its input (the output would have a side that is 0 or negative). *)
Definition conv2d (W : Weights) (name : option string) (filters : nat)
           (kernel_size : nat * nat) (act : option activation) (x : FeatureMap)
  : option FeatureMap :=
  let '(kh, kw) := kernel_size in
  if (1 <=? filters) && (1 <=? kh) && (1 <=? kw) && (kh <=? height x) && (kw <=? width x)
  then Some (mkFM (batch x) (height x + 1 - kh) (width x + 1 - kw) filters
               (fun n r c o =>
                  apply_act act
                    (add (sum_upto kh (fun i =>
                            sum_upto kw (fun j =>
                              sum_upto (channels x) (fun ch =>
                                mul (val x n (r + i) (c + j) ch)
                                    (conv_kernel W name i j ch o)))))
                         (conv_bias W name o))))
  else None.

(** Broadcasting of two sizes along one axis, and the index read. *)
Definition bdim (a b : nat) : option nat :=
  if a =? b then Some a
  else if a =? 1 then Some b
  else if b =? 1 then Some a
  else None.

Definition bidx (d i : nat) : nat := if d =? 1 then 0 else i.

(** Elementwise combination with broadcasting ([Add], [Multiply], [x[0]+x[1]]). *)
Definition zip_with (f : T -> T -> T) (a b : FeatureMap) : option FeatureMap :=
  match bdim (batch a) (batch b), bdim (height a) (height b),
        bdim (width a) (width b), bdim (channels a) (channels b) with
  | Some bn, Some bh, Some bw, Some bc =>
      Some (mkFM bn bh bw bc
              (fun n r c k =>
                 f (val a (bidx (batch a) n) (bidx (height a) r)
                          (bidx (width a) c) (bidx (channels a) k))
                   (val b (bidx (batch b) n) (bidx (height b) r)
                          (bidx (width b) c) (bidx (channels b) k))))
  | _, _, _, _ => None
  end.

Definition map_val (f : T -> T) (x : FeatureMap) : FeatureMap :=
  mkFM (batch x) (height x) (width x) (channels x)
    (fun n r c k => f (val x n r c k)).

(** [x[:,:,:x_shape[2]-1,:]] *)
Definition _crop_right (x : FeatureMap) : FeatureMap :=
  let x_shape := shape_of x in
  mkFM (batch x) (height x) (width x - 1) (channels x) (val x).

(** [x[:,:n,:,:]] *)
Definition take_rows (n : nat) (x : FeatureMap) : FeatureMap :=
  mkFM (batch x) (Nat.min n (height x)) (width x) (channels x) (val x).

Definition _shift_down (x : FeatureMap) : FeatureMap :=
  let x_shape := shape_of x in
  let x' := zero_padding2d ((1, 0), (0, 0)) x in
  take_rows (snd (fst (fst x_shape))) x'.

Definition apply_lambda (f : lambda_fn) (x : FeatureMap) : FeatureMap :=
  match f with
  | crop_right_fn => _crop_right x
  | shift_down_fn => _shift_down x
  | slice_f nf =>
      mkFM (batch x) (height x) (width x) (Nat.min nf (channels x)) (val x)
  | slice_g nf =>
      mkFM (batch x) (height x) (width x) (channels x - nf)
        (fun n r c k => val x n r c (nf + k))
  | tanh_fn => map_val tanh x
  | sigmoid_fn => map_val sigmoid x
  end.

Definition dense (W : Weights) (name : string) (units : nat) (m : Matrix) : Matrix :=
  mkMat (mbatch m) units
    (fun n k => add (sum_upto (mdim m) (fun j => mul (mval m n j) (dense_kernel W name j k)))
                    (dense_bias W name k)).

Definition reshape (target_shape : nat * nat * nat) (m : Matrix) : option FeatureMap :=
  let '(th, tw, tc) := target_shape in
  if mdim m =? th * tw * tc
  then Some (mkFM (mbatch m) th tw tc (fun n r c k => mval m n ((r * tw + c) * tc + k)))
  else None.

Fixpoint eval_vec (W : Weights) (latent : option Matrix) (v : Vector) : option Matrix :=
  match v with
  | InputVec dim _ =>
      match latent with
      | Some m => if mdim m =? dim then Some m else None
      | None => None
      end
  | Dense units name v' =>
      match eval_vec W latent v' with
      | Some m => Some (dense W name units m)
      | None => None
      end
  end.

(** The value of a symbolic tensor for a given image and latent input. *)
Fixpoint eval (W : Weights) (image : FeatureMap) (latent : option Matrix) (t : Tensor)
  : option FeatureMap :=
  match t with
  | Input shape _ =>
      if (fst (fst shape) =? height image) && (snd (fst shape) =? width image)
         && (snd shape =? channels image)
      then Some image else None
  | Reshape target_shape _ v =>
      match eval_vec W latent v with
      | Some m => reshape target_shape m
      | None => None
      end
  | ZeroPadding2D padding _ x =>
      match eval W image latent x with
      | Some x' => Some (zero_padding2d padding x')
      | None => None
      end
  | Conv2D filters kernel_size act name x =>
      match eval W image latent x with
      | Some x' => conv2d W name filters kernel_size act x'
      | None => None
      end
  | Lambda f _ x =>
      match eval W image latent x with
      | Some x' => Some (apply_lambda f x')
      | None => None
      end
  | LambdaSum _ x0 x1 =>
      match eval W image latent x0, eval W image latent x1 with
      | Some a, Some b => zip_with add a b
      | _, _ => None
      end
  | Add _ a b =>
      match eval W image latent a, eval W image latent b with
      | Some a', Some b' => zip_with add a' b'
      | _, _ => None
      end
  | Multiply _ a b =>
      match eval W image latent a, eval W image latent b with
      | Some a', Some b' => zip_with mul a' b'
      | _, _ => None
      end
  | Activation relu _ x =>
      match eval W image latent x with
      | Some x' => Some (map_val relu_f x')
      | None => None
      end
  end.

(** Reading one entry of a computed tensor; out of range there is none. *)
Definition pixel (o : option FeatureMap) (n r c k : nat) : option T :=
  match o with
  | Some y =>
      if (n <? batch y) && (r <? height y) && (c <? width y) && (k <? channels y)
      then Some (val y n r c k) else None
  | None => None
  end.

End Semantics.

Arguments FeatureMap T : clear implicits.
Arguments Matrix T : clear implicits.
Arguments Weights T : clear implicits.

(** ** The shapes Keras infers when a layer is called

    [K.int_shape] without the batch axis: (height, width, channels).  Keras
    computes it when the layer is called and raises ValueError where there
    is none: a convolution without filters, with a kernel that has a side
    of 0 or that is larger than its input, operands
    of [Add], [Multiply] or [+] that cannot be broadcast together, a
    reshape to another number of entries. *)

Definition static_dim (v : Vector) : nat :=
  match v with
  | InputVec dim _ => dim
  | Dense units _ _ => units
  end.

Definition static_lambda (f : lambda_fn) (s : nat * nat * nat) : nat * nat * nat :=
  let '(h, w, c) := s in
  match f with
  | crop_right_fn => (h, w - 1, c)
  | shift_down_fn => (Nat.min h (1 + h + 0), 0 + w + 0, c)
  | slice_f nf => (h, w, Nat.min nf c)
  | slice_g nf => (h, w, c - nf)
  | tanh_fn => (h, w, c)
  | sigmoid_fn => (h, w, c)
  end.

Definition static_broadcast (a b : option (nat * nat * nat)) : option (nat * nat * nat) :=
  match a, b with
  | Some (h1, w1, c1), Some (h2, w2, c2) =>
      match bdim h1 h2, bdim w1 w2, bdim c1 c2 with
      | Some h, Some w, Some c => Some (h, w, c)
      | _, _, _ => None
      end
  | _, _ => None
  end.

Fixpoint static_shape (t : Tensor) : option (nat * nat * nat) :=
  match t with
  | Input shape _ => Some shape
  | Reshape target_shape _ v =>
      let '(th, tw, tc) := target_shape in
      if static_dim v =? th * tw * tc then Some target_shape else None
  | ZeroPadding2D padding _ x =>
      let '((ptop, pbottom), (pleft, pright)) := padding in
      match static_shape x with
      | Some (h, w, c) => Some (ptop + h + pbottom, pleft + w + pright, c)
      | None => None
      end
  | Conv2D filters kernel_size _ _ x =>
      let '(kh, kw) := kernel_size in
      match static_shape x with
      | Some (h, w, c) =>
          if (1 <=? filters) && (1 <=? kh) && (1 <=? kw) && (kh <=? h) && (kw <=? w)
          then Some (h + 1 - kh, w + 1 - kw, filters)
          else None
      | None => None
      end
  | Lambda f _ x =>
      match static_shape x with
      | Some s => Some (static_lambda f s)
      | None => None
      end
  | LambdaSum _ x0 x1 => static_broadcast (static_shape x0) (static_shape x1)
  | Add _ a b => static_broadcast (static_shape a) (static_shape b)
  | Multiply _ a b => static_broadcast (static_shape a) (static_shape b)
  | Activation _ _ x => static_shape x
  end.


(** ** The world the constructor and the builder run in *)

(** One layer call: the tensor it produced. *)
Inductive Op : Type :=
| TensorOp (t : Tensor)
| VectorOp (v : Vector).

Record World : Type := mkWorld {
  fs : list string;                 (* paths that exist on the filesystem *)
  image_dim_ordering : string;      (* Keras' global backend setting *)
  layers : list Op;                 (* layer calls performed so far *)
  files : list string               (* which existing paths are regular files *)
}.

Inductive exn : Type :=
| UnboundLocalError (var : string)
| AttributeError (attr : string)
| FileExistsError (path : string)
| NotADirectoryError (path : string)
| FileNotFoundError (path : string)
| ValueError (msg : string).

Definition M (A : Type) : Type := World -> (exn + A) * World.

Definition ret {A} (a : A) : M A := fun w => (inr a, w).

Definition raise {A} (e : exn) : M A := fun w => (inl e, w).

Definition bind {A B} (m : M A) (f : A -> M B) : M B :=
  fun w => match m w with
           | (inr a, w') => f a w'
           | (inl e, w') => (inl e, w')
           end.

Declare Scope build_scope.
Delimit Scope build_scope with build.
Notation "x <- c1 ;; c2" := (bind c1 (fun x => c2))
  (at level 100, c1 at next level, right associativity) : build_scope.
Notation "c1 ;;; c2" := (bind c1 (fun _ => c2))
  (at level 100, right associativity) : build_scope.
Open Scope build_scope.

(** Calling a layer on its input asks Keras for one tensor operation.  The
    builder below records the graph the source asks for; the checks Keras
    makes when a layer is called (kernel sizes, operand shapes) are those
    of [static_shape] above. *)
Definition call_layer (t : Tensor) : M Tensor :=
  fun w => (inr t, mkWorld (fs w) (image_dim_ordering w) (layers w ++ [TensorOp t])
                           (files w)).

Definition call_vlayer (v : Vector) : M Vector :=
  fun w => (inr v, mkWorld (fs w) (image_dim_ordering w) (layers w ++ [VectorOp v])
                           (files w)).

(** Reading a local variable that no executed branch has assigned. *)
Definition read_local {A} (var : string) (v : option A) : M A :=
  match v with
  | Some a => ret a
  | None => raise (UnboundLocalError var)
  end.

(** The result and the final world of a computation. *)
Definition result {A} (r : (exn + A) * World) : exn + A := fst r.
Definition world {A} (r : (exn + A) * World) : World := snd r.

(** ** Filesystem operations used by the constructor

    Paths are kept in one spelling, as the source writes them ('./name').
    A path in [fs] is a regular file when it is also in [files], and a
    directory otherwise; an entry of [files] for a path that does not exist
    says nothing. *)

Definition path_exists (p : string) : M bool :=
  fun w => (inr (existsb (String.eqb p) (fs w)), w).

(** [under d p]: [p] is [d] itself or lies below the directory [d]. *)
Definition under (d p : string) : bool :=
  String.eqb d p || String.prefix (d ++ "/") p.

(** [shutil.rmtree(d)]: the path must exist and be a directory. *)
Definition rmtree (d : string) : M unit :=
  fun w => if negb (existsb (String.eqb d) (fs w))
           then (inl (FileNotFoundError d), w)
           else if existsb (String.eqb d) (files w)
           then (inl (NotADirectoryError d), w)
           else (inr tt, mkWorld (filter (fun p => negb (under d p)) (fs w))
                                 (image_dim_ordering w) (layers w) (files w)).

Definition makedirs (d : string) : M unit :=
  fun w => if existsb (String.eqb d) (fs w)
           then (inl (FileExistsError d), w)
           else (inr tt, mkWorld (d :: fs w) (image_dim_ordering w) (layers w)
                                 (filter (fun p => negb (String.eqb d p)) (files w))).

Definition set_image_dim_ordering (o : string) : M unit :=
  fun w => (inr tt, mkWorld (fs w) o (layers w) (files w)).

(** ** class GatedCNN *)

Module GatedCNN.

Record t : Type := __init__ {
  nb_filters : nat;
  stack_name : string;
  v_map : option Tensor;
  h : option Vector;
  crop_right : bool
}.

Definition __call__ (self : t) (xW : Tensor) (layer_idx : nat) : M Tensor :=
  let stack_tag :=
    if (stack_name self =? "vertical")%string then Some "v"
    else if (stack_name self =? "horizontal")%string then Some "h"
    else None in
  xW <- (if crop_right self
         then call_layer (Lambda crop_right_fn ("h_crop_right_" ++ str layer_idx) xW)
         else ret xW) ;;
  xW <- (match v_map self with
         | Some v => call_layer (Add ("h_merge_v_" ++ str layer_idx) xW v)
         | None => ret xW
         end) ;;
  xW <- (match h self with
         | Some h =>
             tag <- read_local "stack_tag" stack_tag ;;
             hV <- call_vlayer (Dense (2 * nb_filters self)
                                  (tag ++ "_dense_latent_" ++ str layer_idx) h) ;;
             tag <- read_local "stack_tag" stack_tag ;;
             hV <- call_layer (Reshape (1, 1, 2 * nb_filters self)
                                 (tag ++ "_reshape_latent_" ++ str layer_idx) hV) ;;
             tag <- read_local "stack_tag" stack_tag ;;
             call_layer (LambdaSum (tag ++ "_merge_latent_" ++ str layer_idx) xW hV)
         | None => ret xW
         end) ;;
  tag <- read_local "stack_tag" stack_tag ;;
  xW_f <- call_layer (Lambda (slice_f (nb_filters self)) (tag ++ "_Wf_" ++ str layer_idx) xW) ;;
  tag <- read_local "stack_tag" stack_tag ;;
  xW_g <- call_layer (Lambda (slice_g (nb_filters self)) (tag ++ "_Wg_" ++ str layer_idx) xW) ;;
  tag <- read_local "stack_tag" stack_tag ;;
  xW_f <- call_layer (Lambda tanh_fn (tag ++ "_tanh_" ++ str layer_idx) xW_f) ;;
  tag <- read_local "stack_tag" stack_tag ;;
  xW_g <- call_layer (Lambda sigmoid_fn (tag ++ "_sigmoid_" ++ str layer_idx) xW_g) ;;
  tag <- read_local "stack_tag" stack_tag ;;
  res <- call_layer (Multiply (tag ++ "_merge_gate_" ++ str layer_idx) xW_f xW_g) ;;
  ret res.

End GatedCNN.

(** ** class ReLUCNN *)

Module ReLUCNN.

Record t : Type := __init__ {
  nb_filters : nat;
  stack_name : string;
  v_map : option Tensor;
  h : option Vector;
  crop_right : bool
}.

Definition __call__ (self : t) (xW : Tensor) (layer_idx : nat) : M Tensor :=
  let stack_tag :=
    if (stack_name self =? "vertical")%string then Some "v"
    else if (stack_name self =? "horizontal")%string then Some "h"
    else None in
  xW <- (if crop_right self
         then call_layer (Lambda crop_right_fn ("h_crop_right_" ++ str layer_idx) xW)
         else ret xW) ;;
  xW <- (match v_map self with
         | Some v => call_layer (Add ("h_merge_v_" ++ str layer_idx) xW v)
         | None => ret xW
         end) ;;
  xW <- (match h self with
         | Some h =>
             tag <- read_local "stack_tag" stack_tag ;;
             hV <- call_vlayer (Dense (nb_filters self)
                                  (tag ++ "_dense_latent_" ++ str layer_idx) h) ;;
             tag <- read_local "stack_tag" stack_tag ;;
             hV <- call_layer (Reshape (1, 1, nb_filters self)
                                 (tag ++ "_reshape_latent_" ++ str layer_idx) hV) ;;
             tag <- read_local "stack_tag" stack_tag ;;
             call_layer (LambdaSum (tag ++ "_merge_latent_" ++ str layer_idx) xW hV)
         | None => ret xW
         end) ;;
  tag <- read_local "stack_tag" stack_tag ;;
  res <- call_layer (Activation relu (tag ++ "_relu_latent_" ++ str layer_idx) xW) ;;
  ret res.

End ReLUCNN.

(** ** Keras models *)

Record KerasModel : Type := Model {
  inputs : Tensor * option Vector;   (* input_img, or [input_img, latent_vector] *)
  outputs : Tensor;
  compiled : option string           (* the optimizer given to [compile] *)
}.

Definition compile (m : KerasModel) (optimizer : string) : KerasModel :=
  Model (inputs m) (outputs m) (Some optimizer).

(** The argument of [Model.predict]: [x] or [[x, h]]. *)
Inductive model_input (T : Type) : Type :=
| OneInput (x : FeatureMap T)
| TwoInputs (x : FeatureMap T) (h : Matrix T).
Arguments OneInput {T} x.
Arguments TwoInputs {T} x h.

Definition model_predict {T} `{Scalar T} (W : Weights T) (m : KerasModel)
           (x : model_input T) (batch_size : nat) : option (FeatureMap T) :=
  match snd (inputs m), x with
  | None, OneInput img => eval W img None (outputs m)
  | Some _, TwoInputs img lat =>
      if batch img =? mbatch lat then eval W img (Some lat) (outputs m) else None
  | _, _ => None
  end.

(** ** class PixelCNN *)

Module PixelCNN.

(** The keyword arguments of the constructor. *)
Module Kw.
Record t : Type := mk {
  input_size : nat * nat;
  nb_channels : nat;
  conditional : bool;
  latent_dim : nat;
  nb_pixelcnn_layers : nat;
  nb_filters : nat;
  gated : bool;
  filter_size_1st : nat * nat;
  filter_size : nat * nat;
  optimizer : string;
  es_patience : nat;
  save_root : string;
  checkpoint_path : string;
  save_best_only : bool
}.

Definition defaults (input_size : nat * nat) : t :=
  mk input_size 3 false 10 3 128 true (7, 7) (3, 3) "adam" 100 "." "weights.h5" false.
End Kw.

(** The attributes of an instance; [None] is an attribute not set yet. *)
Record t : Type := mk {
  input_size : nat * nat;
  conditional : bool;
  latent_dim : nat;
  nb_pixelcnn_layers : nat;
  nb_filters : nat;
  gated : bool;
  filter_size_1st : nat * nat;
  filter_size : nat * nat;
  nb_channels : nat;
  optimizer : string;
  es_patience : nat;
  save_best_only : bool;
  tensorboard : string;            (* TensorBoard(log_dir=...) *)
  checkpointer : string * nat;     (* ModelCheckpoint(filepath=..., period=10) *)
  earlystopping : nat;             (* EarlyStopping(patience=...) *)
  h : option (option Vector);
  predicted : option Tensor;
  model : option KerasModel
}.

Definition set_h (self : t) (v : option Vector) : t :=
  mk (input_size self) (conditional self) (latent_dim self) (nb_pixelcnn_layers self)
     (nb_filters self) (gated self) (filter_size_1st self) (filter_size self)
     (nb_channels self) (optimizer self) (es_patience self) (save_best_only self)
     (tensorboard self) (checkpointer self) (earlystopping self)
     (Some v) (predicted self) (model self).

Definition set_predicted (self : t) (p : Tensor) : t :=
  mk (input_size self) (conditional self) (latent_dim self) (nb_pixelcnn_layers self)
     (nb_filters self) (gated self) (filter_size_1st self) (filter_size self)
     (nb_channels self) (optimizer self) (es_patience self) (save_best_only self)
     (tensorboard self) (checkpointer self) (earlystopping self)
     (h self) (Some p) (model self).

Definition set_model (self : t) (m : KerasModel) : t :=
  mk (input_size self) (conditional self) (latent_dim self) (nb_pixelcnn_layers self)
     (nb_filters self) (gated self) (filter_size_1st self) (filter_size self)
     (nb_channels self) (optimizer self) (es_patience self) (save_best_only self)
     (tensorboard self) (checkpointer self) (earlystopping self)
     (h self) (predicted self) (Some m).

Definition __init__ (kw : Kw.t) : M t :=
  set_image_dim_ordering "tf" ;;;
  let tensorboard_dir := "./block_cnn_logs" in
  present <- path_exists tensorboard_dir ;;
  (if present then rmtree tensorboard_dir else ret tt) ;;;
  makedirs tensorboard_dir ;;;
  ret (mk (Kw.input_size kw) (Kw.conditional kw) (Kw.latent_dim kw)
          (Kw.nb_pixelcnn_layers kw) (Kw.nb_filters kw) (Kw.gated kw)
          (Kw.filter_size_1st kw) (Kw.filter_size kw) (Kw.nb_channels kw)
          (Kw.optimizer kw) (Kw.es_patience kw) (Kw.save_best_only kw)
          tensorboard_dir (Kw.checkpoint_path kw, 10) (Kw.es_patience kw)
          None None None).

Definition _masked_conv (self : t) (x : Tensor) (filter_size : nat * nat)
           (stack_name : string) (layer_idx : nat) (mask_type : string) : M Tensor :=
  let my_nb_filters := if gated self then 2 * nb_filters self else nb_filters self in
  res <- (if (stack_name =? "vertical")%string then
            res <- call_layer
                     (ZeroPadding2D ((fst filter_size / 2, 0),
                                     (snd filter_size / 2, snd filter_size / 2))
                                    (Some ("v_pad_" ++ str layer_idx)%string) x) ;;
            res <- call_layer
                     (Conv2D my_nb_filters (fst filter_size / 2 + 1, snd filter_size)
                             None (Some ("v_conv_" ++ str layer_idx)%string) res) ;;
            ret (Some res)
          else if (stack_name =? "horizontal")%string then
            res <- call_layer
                     (ZeroPadding2D ((0, 0), (snd filter_size / 2, 0))
                                    (Some ("h_pad_" ++ str layer_idx)%string) x) ;;
            res <- (if (mask_type =? "A")%string then
                      call_layer
                        (Conv2D my_nb_filters (1, snd filter_size / 2)
                                None (Some ("h_conv_" ++ str layer_idx)%string) res)
                    else
                      call_layer
                        (Conv2D my_nb_filters (1, snd filter_size / 2 + 1)
                                None (Some ("h_conv_" ++ str layer_idx)%string) res)) ;;
            ret (Some res)
          else ret None) ;;
  read_local "res" res.

Definition _feed_v_map (self : t) (x : Tensor) (layer_idx : nat) : M Tensor :=
  x <- call_layer (Lambda shift_down_fn ("v_shift_down" ++ str layer_idx) x) ;;
  let my_nb_filters := if gated self then 2 * nb_filters self else nb_filters self in
  x <- call_layer (Conv2D my_nb_filters (1, 1) None
                          (Some ("v_1x1_conv_" ++ str layer_idx)%string) x) ;;
  ret x.

(** The activation unit of the configured variant. *)
Definition unit_call (self : t) (stack_name : string) (v_map : option Tensor)
           (h : option Vector) (crop_right : bool) (xW : Tensor) (layer_idx : nat)
  : M Tensor :=
  if gated self
  then GatedCNN.__call__
         (GatedCNN.__init__ (nb_filters self) stack_name v_map h crop_right) xW layer_idx
  else ReLUCNN.__call__
         (ReLUCNN.__init__ (nb_filters self) stack_name v_map h crop_right) xW layer_idx.

(** [for i in l: s = body(i, s)] *)
Fixpoint for_each {S : Type} (l : list nat) (body : nat -> S -> M S) (s : S) : M S :=
  match l with
  | [] => ret s
  | i :: l' => s' <- body i s ;; for_each l' body s'
  end.

(** One subsequent layer: the body of the first loop of [_build_layers],
    on the loop-carried variables (v_stack_out, h_stack_out). *)
Definition layer_body (self : t) (h : option Vector) (i : nat) (st : Tensor * Tensor)
  : M (Tensor * Tensor) :=
  let '(v_stack_out, h_stack_out) := st in
  v_masked_map <- _masked_conv self v_stack_out (filter_size self) "vertical" i "B" ;;
  v_feed_map <- _feed_v_map self v_masked_map i ;;
  v_stack_out <- unit_call self "vertical" None h false v_masked_map i ;;
  let h_stack_out_prev := h_stack_out in
  h_masked_map <- _masked_conv self h_stack_out (filter_size self) "horizontal" i "B" ;;
  h_stack_out <- unit_call self "horizontal" (Some v_feed_map) h false h_masked_map i ;;
  h_stack_out <- call_layer (Conv2D (nb_filters self) (1, 1) None
                                    (Some ("h_1x1_conv_" ++ str i)%string) h_stack_out) ;;
  h_stack_out <- call_layer (Add ("h_residual_" ++ str i) h_stack_out h_stack_out_prev) ;;
  ret (v_stack_out, h_stack_out).

(** The first layer, up to the loop-carried variables. *)
Definition first_layer (self : t) (h : option Vector) (x : Tensor) : M (Tensor * Tensor) :=
  v_masked_map <- _masked_conv self x (filter_size_1st self) "vertical" 0 "B" ;;
  v_feed_map <- _feed_v_map self v_masked_map 0 ;;
  v_stack_out <- unit_call self "vertical" None h false v_masked_map 0 ;;
  h_masked_map <- _masked_conv self x (filter_size_1st self) "horizontal" 0 "A" ;;
  h_stack_out <- unit_call self "horizontal" (Some v_feed_map) h true h_masked_map 0 ;;
  h_stack_out <- call_layer (Conv2D (nb_filters self) (1, 1) None
                                    (Some "h_1x1_conv_0") h_stack_out) ;;
  ret (v_stack_out, h_stack_out).

(** The two penultimate convolutions and the output projection. *)
Definition head (self : t) (h_stack_out : Tensor) : M Tensor :=
  h_stack_out <- for_each (range 0 2)
                   (fun i h_stack_out =>
                      call_layer (Conv2D (nb_filters self) (1, 1) (Some relu)
                                         (Some ("penultimate_convs" ++ str i)%string) h_stack_out))
                   h_stack_out ;;
  res <- call_layer (Conv2D (nb_channels self) (1, 1) None None h_stack_out) ;;
  ret res.

Definition _build_layers (self : t) (x : Tensor) (h : option Vector) : M (t * Tensor) :=
  let self := set_h self h in
  let h := match PixelCNN.h self with Some v => v | None => None end in
  st <- first_layer self h x ;;
  st <- for_each (range 1 (nb_pixelcnn_layers self)) (layer_body self h) st ;;
  res <- head self (snd st) ;;
  ret (self, res).

Definition build_model (self : t) : M t :=
  let input_img := Input (fst (input_size self), snd (input_size self), nb_channels self)
                         "input_image" in
  if conditional self then
    let latent_vector := InputVec (latent_dim self) "latent_vector" in
    r <- _build_layers self input_img (Some latent_vector) ;;
    let self := set_predicted (fst r) (snd r) in
    let self := set_model self (Model (input_img, Some latent_vector) (snd r) None) in
    ret (set_model self (compile (Model (input_img, Some latent_vector) (snd r) None)
                                 (optimizer self)))
  else
    r <- _build_layers self input_img None ;;
    let self := set_predicted (fst r) (snd r) in
    let self := set_model self (Model (input_img, None) (snd r) None) in
    ret (set_model self (compile (Model (input_img, None) (snd r) None) (optimizer self))).

(** The class object: the names defined by the [class] statement.  An
    instance attribute such as [model] is not among them. *)
Inductive attr : Type :=
| Function
| ModelAttr (m : KerasModel).

Definition class_attrs : list (string * attr) :=
  [("__init__", Function); ("_masked_conv", Function); ("_shift_down", Function);
   ("_feed_v_map", Function); ("_build_layers", Function); ("build_model", Function);
   ("blockcnn_loss", Function); ("fit", Function); ("fit_generator", Function);
   ("load_model", Function); ("export_to_json", Function); ("export_to_yaml", Function);
   ("predict", Function); ("print_train_parameters", Function);
   ("export_train_parameters", Function)].

Fixpoint getattr (attrs : list (string * attr)) (name : string) : M attr :=
  match attrs with
  | [] => raise (AttributeError name)
  | (k, a) :: rest => if (k =? name)%string then ret a else getattr rest name
  end.

(** [predict] is declared with [@classmethod]: its first parameter is bound
    to the class, also when it is called on an instance. *)
Definition predict {T} `{Scalar T} (W : Weights T) (cls : list (string * attr))
           (x : model_input T) (batch_size : nat) : M (FeatureMap T) :=
  m <- getattr cls "model" ;;
  match m with
  | ModelAttr m =>
      match model_predict W m x batch_size with
      | Some y => ret y
      | None => raise (ValueError "predict")
      end
  | Function => raise (AttributeError "predict")
  end.

(** [instance.predict(x, batch_size)] *)
Definition call_predict {T} `{Scalar T} (W : Weights T) (instance : t)
           (x : model_input T) (batch_size : nat) : M (FeatureMap T) :=
  predict W class_attrs x batch_size.

End PixelCNN.

(** ** The graph in closed form

    The terms the builder produces, written by component.  The theorems
    below show that the builder returns exactly these. *)

Definition pre_activation_channels (self : PixelCNN.t) : nat :=
  if PixelCNN.gated self then 2 * PixelCNN.nb_filters self else PixelCNN.nb_filters self.

Definition masked_vertical (self : PixelCNN.t) (filter_size : nat * nat) (i : nat)
           (x : Tensor) : Tensor :=
  Conv2D (pre_activation_channels self) (fst filter_size / 2 + 1, snd filter_size) None
         (Some ("v_conv_" ++ str i)%string)
         (ZeroPadding2D ((fst filter_size / 2, 0), (snd filter_size / 2, snd filter_size / 2))
                        (Some ("v_pad_" ++ str i)%string) x).

Definition masked_horizontal_A (self : PixelCNN.t) (filter_size : nat * nat) (i : nat)
           (x : Tensor) : Tensor :=
  Conv2D (pre_activation_channels self) (1, snd filter_size / 2) None
         (Some ("h_conv_" ++ str i)%string)
         (ZeroPadding2D ((0, 0), (snd filter_size / 2, 0)) (Some ("h_pad_" ++ str i)%string) x).

Definition masked_horizontal_B (self : PixelCNN.t) (filter_size : nat * nat) (i : nat)
           (x : Tensor) : Tensor :=
  Conv2D (pre_activation_channels self) (1, snd filter_size / 2 + 1) None
         (Some ("h_conv_" ++ str i)%string)
         (ZeroPadding2D ((0, 0), (snd filter_size / 2, 0)) (Some ("h_pad_" ++ str i)%string) x).

Definition feed_projector (self : PixelCNN.t) (i : nat) (x : Tensor) : Tensor :=
  Conv2D (pre_activation_channels self) (1, 1) None (Some ("v_1x1_conv_" ++ str i)%string)
         (Lambda shift_down_fn ("v_shift_down" ++ str i) x).

(** The steps of an activation unit before the non-linearity. *)
Definition cropped (crop_right : bool) (i : nat) (xW : Tensor) : Tensor :=
  if crop_right then Lambda crop_right_fn ("h_crop_right_" ++ str i) xW else xW.

Definition merged_feed (v_map : option Tensor) (i : nat) (xW : Tensor) : Tensor :=
  match v_map with
  | Some v => Add ("h_merge_v_" ++ str i) xW v
  | None => xW
  end.

Definition merged_latent (units : nat) (tag : string) (h : option Vector) (i : nat)
           (xW : Tensor) : Tensor :=
  match h with
  | Some hv =>
      LambdaSum (tag ++ "_merge_latent_" ++ str i) xW
        (Reshape (1, 1, units) (tag ++ "_reshape_latent_" ++ str i)
           (Dense units (tag ++ "_dense_latent_" ++ str i) hv))
  | None => xW
  end.

Definition pre_activation (units : nat) (tag : string) (v_map : option Tensor)
           (h : option Vector) (crop_right : bool) (i : nat) (xW : Tensor) : Tensor :=
  merged_latent units tag h i (merged_feed v_map i (cropped crop_right i xW)).

Definition gate (nb_filters : nat) (tag : string) (i : nat) (xW : Tensor) : Tensor :=
  Multiply (tag ++ "_merge_gate_" ++ str i)
    (Lambda tanh_fn (tag ++ "_tanh_" ++ str i)
       (Lambda (slice_f nb_filters) (tag ++ "_Wf_" ++ str i) xW))
    (Lambda sigmoid_fn (tag ++ "_sigmoid_" ++ str i)
       (Lambda (slice_g nb_filters) (tag ++ "_Wg_" ++ str i) xW)).

Definition gated_unit (nb_filters : nat) (tag : string) (v_map : option Tensor)
           (h : option Vector) (crop_right : bool) (i : nat) (xW : Tensor) : Tensor :=
  gate nb_filters tag i (pre_activation (2 * nb_filters) tag v_map h crop_right i xW).

Definition relu_unit (nb_filters : nat) (tag : string) (v_map : option Tensor)
           (h : option Vector) (crop_right : bool) (i : nat) (xW : Tensor) : Tensor :=
  Activation relu (tag ++ "_relu_latent_" ++ str i)
    (pre_activation nb_filters tag v_map h crop_right i xW).

Definition activation_unit (self : PixelCNN.t) (tag : string) (v_map : option Tensor)
           (h : option Vector) (crop_right : bool) (i : nat) (xW : Tensor) : Tensor :=
  if PixelCNN.gated self
  then gated_unit (PixelCNN.nb_filters self) tag v_map h crop_right i xW
  else relu_unit (PixelCNN.nb_filters self) tag v_map h crop_right i xW.

Definition projection (self : PixelCNN.t) (i : nat) (x : Tensor) : Tensor :=
  Conv2D (PixelCNN.nb_filters self) (1, 1) None (Some ("h_1x1_conv_" ++ str i)%string) x.

(** Layer 0: (v_stack_out, h_stack_out). *)
Definition first_layer_graph (self : PixelCNN.t) (h : option Vector) (x : Tensor)
  : Tensor * Tensor :=
  let v_masked_map := masked_vertical self (PixelCNN.filter_size_1st self) 0 x in
  (activation_unit self "v" None h false 0 v_masked_map,
   projection self 0
     (activation_unit self "h" (Some (feed_projector self 0 v_masked_map)) h true 0
        (masked_horizontal_A self (PixelCNN.filter_size_1st self) 0 x))).

(** Layer i >= 1 from the outputs of layer i-1. *)
Definition layer_graph (self : PixelCNN.t) (h : option Vector) (i : nat)
           (st : Tensor * Tensor) : Tensor * Tensor :=
  let v_masked_map := masked_vertical self (PixelCNN.filter_size self) i (fst st) in
  (activation_unit self "v" None h false i v_masked_map,
   Add ("h_residual_" ++ str i)
     (projection self i
        (activation_unit self "h" (Some (feed_projector self i v_masked_map)) h false i
           (masked_horizontal_B self (PixelCNN.filter_size self) i (snd st))))
     (snd st)).

Definition layers_graph (self : PixelCNN.t) (h : option Vector) (l : list nat)
           (st : Tensor * Tensor) : Tensor * Tensor :=
  fold_left (fun st i => layer_graph self h i st) l st.

Definition head_graph (self : PixelCNN.t) (x : Tensor) : Tensor :=
  Conv2D (PixelCNN.nb_channels self) (1, 1) None None
    (Conv2D (PixelCNN.nb_filters self) (1, 1) (Some relu) (Some "penultimate_convs1")
       (Conv2D (PixelCNN.nb_filters self) (1, 1) (Some relu) (Some "penultimate_convs0") x)).

Definition graph (self : PixelCNN.t) (h : option Vector) (x : Tensor) : Tensor :=
  head_graph self
    (snd (layers_graph self h (range 1 (PixelCNN.nb_pixelcnn_layers self))
            (first_layer_graph self h x))).

(** The placeholders and the model made by [build_model]. *)
Definition input_image (self : PixelCNN.t) : Tensor :=
  Input (fst (PixelCNN.input_size self), snd (PixelCNN.input_size self),
         PixelCNN.nb_channels self) "input_image".

Definition latent_input (self : PixelCNN.t) : option Vector :=
  if PixelCNN.conditional self
  then Some (InputVec (PixelCNN.latent_dim self) "latent_vector")
  else None.

Definition built_graph (self : PixelCNN.t) : Tensor :=
  graph self (latent_input self) (input_image self).

Definition built_model (self : PixelCNN.t) : KerasModel :=
  Model (input_image self, latent_input self) (built_graph self)
        (Some (PixelCNN.optimizer self)).

(** The instance after [build_model]. *)
Definition built_instance (self : PixelCNN.t) : PixelCNN.t :=
  PixelCNN.set_model
    (PixelCNN.set_predicted (PixelCNN.set_h self (latent_input self)) (built_graph self))
    (built_model self).

(** The loop-carried variables of [_build_layers] after layer [i]. *)
Definition stacks_after (self : PixelCNN.t) (h : option Vector) (x : Tensor) (i : nat)
  : M (Tensor * Tensor) :=
  st <- PixelCNN.first_layer self h x ;;
  PixelCNN.for_each (range 1 (S i)) (PixelCNN.layer_body self h) st.

(** ** Reading the graph *)



(** ** Effects of a computation *)

Definition log (w : World) (ops : list Op) : World :=
  mkWorld (fs w) (image_dim_ordering w) (layers w ++ ops) (files w).

(** [m] returns [a] from every world and only performs layer calls. *)
Definition returns {A} (m : M A) (a : A) : Prop :=
  forall w, exists ops, m w = (inr a, log w ops).

(** [m] fails from world [w] before any tensor operation is performed. *)
Definition fails_before_any_op {A} (m : M A) (w : World) : Prop :=
  (exists e, result (m w) = inl e) /\ layers (world (m w)) = layers w.


(** ** Agreement of two feature maps on a region of positions *)

Section Regions.

Context {T : Type} `{Scalar T}.

Definition Agree (P : nat -> nat -> Prop) (a a' : FeatureMap T) : Prop :=
  shape_of a = shape_of a' /\
  forall n r c k, n < batch a -> r < height a -> c < width a -> k < channels a ->
                  P r c -> val a n r c k = val a' n r c k.

Definition AgreeO (P : nat -> nat -> Prop) (o o' : option (FeatureMap T)) : Prop :=
  match o, o' with
  | Some a, Some a' => Agree P a a'
  | None, None => True
  | _, _ => False
  end.

End Regions.

(** Raster order: positions strictly before, and up to, the target. *)
Definition before (r0 c0 r c : nat) : Prop := r < r0 \/ (r = r0 /\ c < c0).
Definition upto (r0 c0 r c : nat) : Prop := r < r0 \/ (r = r0 /\ c <= c0).
Definition strictly_after (r0 c0 r c : nat) : Prop := r0 < r \/ (r = r0 /\ c0 < c).
Definition rows_above (r0 r c : nat) : Prop := r < r0.
Definition rows_upto (r0 r c : nat) : Prop := r <= r0.

(** Regions closed under broadcasting an index to 0. *)
Definition closed (P : nat -> nat -> Prop) : Prop :=
  forall r c, P r c -> P 0 c /\ P r 0 /\ P 0 0.

(** The argument of [predict] for an image and an optional latent vector. *)
Definition model_inputs {T} (x : FeatureMap T) (h : option (Matrix T)) : model_input T :=
  match h with
  | Some hv => TwoInputs x hv
  | None => OneInput x
  end.

(** An integer instance of the scalars, to run graphs on concrete inputs
    (the two squashing functions are replaced by integer functions). *)
#[export] Instance Z_scalar : Scalar Z :=
  {| zero := 0%Z; add := Z.add; mul := Z.mul;
     tanh := fun z => z; sigmoid := fun z => (z + 1)%Z; relu_f := Z.max 0 |}.

(** A small configuration, its weights and two images, to run the graph. *)
Definition example_instance (gated conditional : bool) (layers_nb : nat) : PixelCNN.t :=
  PixelCNN.mk (3, 3) conditional 2 layers_nb 2 gated (3, 3) (3, 3) 1 "adam" 100 false
              "./block_cnn_logs" ("weights.h5", 10) 100 None None None.

Definition example_world : World := mkWorld [] "th" [] [].

Definition example_weights : Weights Z :=
  mkWeights (fun _ i j ch o => Z.of_nat (1 + i + 2 * j + ch + o)) (fun _ _ => 1%Z)
            (fun _ j k => Z.of_nat (j + k)) (fun _ _ => 0%Z).

Definition example_image : FeatureMap Z :=
  mkFM 1 3 3 1 (fun n r c k => Z.of_nat (r + c)).

(** The same image, changed at (1,2) and on the whole of row 2. *)
Definition example_image' : FeatureMap Z :=
  mkFM 1 3 3 1 (fun n r c k => if ((r =? 1) && (c =? 2)) || (r =? 2) then 7%Z
                               else Z.of_nat (r + c)).

Definition example_latent : Matrix Z := mkMat 1 2 (fun n j => Z.of_nat (3 + j)).

(** The example image changed at the target (1,1) itself and after it. *)
Definition example_image_from_target : FeatureMap Z :=
  mkFM 1 3 3 1 (fun n r c k => if ((r =? 1) && (1 <=? c)) || (r =? 2) then 9%Z
                               else Z.of_nat (r + c)).

(** An unrelated image of the same shape. *)
Definition example_other_image : FeatureMap Z :=
  mkFM 1 3 3 1 (fun n r c k => Z.of_nat (5 + 2 * r + 3 * c)).

(** A working directory with an old log directory and a data file. *)
Definition example_used_world : World :=
  mkWorld ["./block_cnn_logs"; "./block_cnn_logs/events.out"; "./data.npy"] "th" []
          ["./block_cnn_logs/events.out"; "./data.npy"].


(** The inputs of the first horizontal activation unit of the example. *)
Definition example_h_masked : Tensor :=
  masked_horizontal_A (example_instance true true 1) (3, 3) 0
                      (input_image (example_instance true true 1)).

Definition example_v_feed : Tensor :=
  feed_projector (example_instance true true 1) 0
    (masked_vertical (example_instance true true 1) (3, 3) 0
                     (input_image (example_instance true true 1))).



(** Does the graph read the latent vector? *)
Fixpoint reads_latent (t : Tensor) : bool :=
  match t with
  | Reshape _ _ _ => true
  | Input _ _ => false
  | Add _ a b => reads_latent a || reads_latent b
  | Multiply _ a b => reads_latent a || reads_latent b
  | LambdaSum _ a b => reads_latent a || reads_latent b
  | Conv2D _ _ _ _ x => reads_latent x
  | Lambda _ _ x => reads_latent x
  | Activation _ _ x => reads_latent x
  | ZeroPadding2D _ _ x => reads_latent x
  end.

(** Does the graph contain a residual addition? *)
Fixpoint has_residual_add (t : Tensor) : bool :=
  match t with
  | Add name a b =>
      String.prefix "h_residual_" name || has_residual_add a || has_residual_add b
  | Multiply _ a b => has_residual_add a || has_residual_add b
  | LambdaSum _ a b => has_residual_add a || has_residual_add b
  | Conv2D _ _ _ _ x => has_residual_add x
  | Lambda _ _ x => has_residual_add x
  | Activation _ _ x => has_residual_add x
  | ZeroPadding2D _ _ x => has_residual_add x
  | Input _ _ => false
  | Reshape _ _ _ => false
  end.


(** The latent value given to [predict] fits the model and the image batch. *)
Definition latent_ok {T} (self : PixelCNN.t) (x : FeatureMap T) (lat : option (Matrix T))
  : Prop :=
  match latent_input self, lat with
  | None, None => True
  | Some _, Some l => mbatch l = batch x /\ mdim l = PixelCNN.latent_dim self
  | _, _ => False
  end.

(** The tensor [t] evaluates, to a value of shape [s]. *)
Definition Shaped {T} `{Scalar T} (W : Weights T) (x : FeatureMap T)
           (lat : option (Matrix T)) (s : nat * nat * nat * nat) (t : Tensor) : Prop :=
  exists y, eval W x lat t = Some y /\ shape_of y = s.

(** Two runs of the same graph, on images [a] and [a'], agree on [P] at [t]. *)
Definition Related {T} `{Scalar T} (W : Weights T) (lat : option (Matrix T))
           (a a' : FeatureMap T) (P : nat -> nat -> Prop) (t : Tensor) : Prop :=
  AgreeO P (eval W a lat t) (eval W a' lat t).

(** The stack kinds the units know, with their name tags. *)
Inductive stack_tag : string -> string -> Prop :=
| tag_vertical : stack_tag "vertical" "v"
| tag_horizontal : stack_tag "horizontal" "h".

(** C7 as the claim states it: odd kernel sizes of at least 1 are enough
    for the built model to predict a tensor of the input's shape. *)
Definition shape_preserved {T} `{Scalar T} (W : Weights T) (self : PixelCNN.t) (w : World)
           (x : FeatureMap T) (lat : option (Matrix T)) (batch_size : nat) : Prop :=
  Nat.odd (fst (PixelCNN.filter_size_1st self)) = true ->
  Nat.odd (snd (PixelCNN.filter_size_1st self)) = true ->
  Nat.odd (fst (PixelCNN.filter_size self)) = true ->
  Nat.odd (snd (PixelCNN.filter_size self)) = true ->
  (height x, width x, channels x) =
    (fst (PixelCNN.input_size self), snd (PixelCNN.input_size self),
     PixelCNN.nb_channels self) ->
  exists self' m y,
    result (PixelCNN.build_model self w) = inr self' /\
    PixelCNN.model self' = Some m /\
    model_predict W m (model_inputs x lat) batch_size = Some y /\
    shape_of y = shape_of x.

(** The example configuration with a first-layer kernel of 1 x 1. *)
Definition example_narrow_instance : PixelCNN.t :=
  PixelCNN.mk (3, 3) false 2 2 2 true (1, 1) (3, 3) 1 "adam" 100 false
              "./block_cnn_logs" ("weights.h5", 10) 100 None None None.

(** [m] asks for the layer call [op], from every world. *)
Definition requests {A} (m : M A) (op : Op) : Prop :=
  forall w, In op (layers (world (m w))).

(** The example configuration with a first-layer kernel of 4 x 4. *)
Definition example_even_instance : PixelCNN.t :=
  PixelCNN.mk (3, 3) false 2 2 2 true (4, 4) (3, 3) 1 "adam" 100 false
              "./block_cnn_logs" ("weights.h5", 10) 100 None None None.

(** ** Layer names

    Keras identifies a layer, and its weights, by its name.  The names a
    build gives to the layers it creates, in the order of creation. *)

Definition tensor_name (t : Tensor) : option string :=
  match t with
  | Input _ name => Some name
  | Reshape _ name _ => Some name
  | ZeroPadding2D _ name _ => name
  | Conv2D _ _ _ name _ => name
  | Lambda _ name _ => Some name
  | LambdaSum name _ _ => Some name
  | Add name _ _ => Some name
  | Multiply name _ _ => Some name
  | Activation _ name _ => Some name
  end.

Definition vector_name (v : Vector) : string :=
  match v with
  | InputVec _ name => name
  | Dense _ name _ => name
  end.

Definition op_name (o : Op) : option string :=
  match o with
  | TensorOp t => tensor_name t
  | VectorOp v => Some (vector_name v)
  end.

Definition given_name (n : option string) : list string :=
  match n with
  | Some name => [name]
  | None => []
  end.

(** The explicit names among the layer calls [ops]. *)
Definition layer_names (ops : list Op) : list string :=
  flat_map (fun o => given_name (op_name o)) ops.

(** [m] succeeds from every world, only performs layer calls, and the
    layers it creates are named [l], in this order. *)
Definition names_logged {A} (m : M A) (l : list string) : Prop :=
  forall w, exists a ops, m w = (inr a, log w ops) /\ layer_names ops = l.

(** The name stems of one activation unit, of the first layer and of a
    subsequent layer; the layer index is appended to each. *)
Definition unit_stems (gated conditional : bool) (tag : string) : list string :=
  (if conditional
   then [(tag ++ "_dense_latent_")%string; (tag ++ "_reshape_latent_")%string; (tag ++ "_merge_latent_")%string]
   else []) ++
  (if gated
   then [(tag ++ "_Wf_")%string; (tag ++ "_Wg_")%string; (tag ++ "_tanh_")%string; (tag ++ "_sigmoid_")%string;
         (tag ++ "_merge_gate_")%string]
   else [(tag ++ "_relu_latent_")%string]).

Definition first_layer_stems (gated conditional : bool) : list string :=
  ["v_pad_"; "v_conv_"; "v_shift_down"; "v_1x1_conv_"] ++ unit_stems gated conditional "v" ++
  ["h_pad_"; "h_conv_"; "h_crop_right_"; "h_merge_v_"] ++ unit_stems gated conditional "h" ++
  ["h_1x1_conv_"].

Definition layer_stems (gated conditional : bool) : list string :=
  ["v_pad_"; "v_conv_"; "v_shift_down"; "v_1x1_conv_"] ++ unit_stems gated conditional "v" ++
  ["h_pad_"; "h_conv_"; "h_merge_v_"] ++ unit_stems gated conditional "h" ++
  ["h_1x1_conv_"; "h_residual_"].

Definition numbered (i : nat) (stems : list string) : list string :=
  map (fun p => (p ++ str i)%string) stems.

Definition built_layer_names (self : PixelCNN.t) : list string :=
  numbered 0 (first_layer_stems (PixelCNN.gated self) (PixelCNN.conditional self)) ++
  flat_map (fun i => numbered i (layer_stems (PixelCNN.gated self)
                                             (PixelCNN.conditional self)))
           (range 1 (PixelCNN.nb_pixelcnn_layers self)) ++
  numbered 0 ["penultimate_convs"] ++ numbered 1 ["penultimate_convs"].

(** A name without its trailing decimal digits. *)
Definition is_digit (c : Ascii.ascii) : bool :=
  (48 <=? Ascii.nat_of_ascii c) && (Ascii.nat_of_ascii c <=? 57).

Fixpoint strip_digits (s : string) : string :=
  match s with
  | EmptyString => EmptyString
  | String c s' =>
      match strip_digits s' with
      | EmptyString => if is_digit c then EmptyString else String c EmptyString
      | r => String c r
      end
  end.

Definition stem (p : string) : bool := (strip_digits p =? p)%string.

Fixpoint distinct (l : list string) : bool :=
  match l with
  | [] => true
  | a :: l' => negb (existsb (String.eqb a) l') && distinct l'
  end.

(** * Running the builder *)

Lemma log_nil (w : World) : log w [] = w.
Proof. destruct w; unfold log; simpl; now rewrite app_nil_r. Qed.

Lemma log_log (w : World) (a b : list Op) : log (log w a) b = log w (a ++ b).
Proof. unfold log; simpl; now rewrite app_assoc. Qed.

Lemma returns_ret {A} (a : A) : returns (ret a) a.
Proof. intro w; exists []; unfold ret; now rewrite log_nil. Qed.

Lemma returns_bind {A B} (m : M A) (f : A -> M B) (a : A) (b : B) :
  returns m a -> returns (f a) b -> returns (bind m f) b.
Proof.
  intros Hm Hf w. destruct (Hm w) as [ops1 E1].
  destruct (Hf (log w ops1)) as [ops2 E2].
  exists (ops1 ++ ops2). unfold bind. rewrite E1, E2. now rewrite log_log.
Qed.

Lemma returns_call_layer (t : Tensor) : returns (call_layer t) t.
Proof. intro w; now exists [TensorOp t]. Qed.

Lemma returns_call_vlayer (v : Vector) : returns (call_vlayer v) v.
Proof. intro w; now exists [VectorOp v]. Qed.

Lemma returns_read_local {A} (var : string) (a : A) : returns (read_local var (Some a)) a.
Proof. apply returns_ret. Qed.

Lemma returns_result {A} (m : M A) (a : A) (w : World) :
  returns m a -> result (m w) = inr a.
Proof. intros Hm; destruct (Hm w) as [ops E]; now rewrite E. Qed.


Lemma returns_unique {A} (m : M A) (a b : A) : returns m a -> returns m b -> a = b.
Proof.
  intros Ha Hb. destruct (Ha (mkWorld [] "" [] [])) as [o1 E1].
  destruct (Hb (mkWorld [] "" [] [])) as [o2 E2]. congruence.
Qed.

(** Symbolic execution of a straight-line block. *)
Ltac run :=
  cbv beta iota;
  repeat lazymatch goal with
    | |- returns (bind _ _) _ => eapply returns_bind; [ | cbv beta iota ]
    | |- returns (ret _) _ => apply returns_ret
    | |- returns (call_layer _) _ => apply returns_call_layer
    | |- returns (call_vlayer _) _ => apply returns_call_vlayer
    | |- returns (read_local _ (Some _)) _ => apply returns_read_local
    end.

(** Equality of two shapes, componentwise. *)
Ltac shape_eq := repeat (apply pair_equal_spec; split); try reflexivity; lia.

Lemma masked_conv_vertical (self : PixelCNN.t) (x : Tensor) (filter_size : nat * nat)
      (i : nat) (mask_type : string) :
  returns (PixelCNN._masked_conv self x filter_size "vertical" i mask_type)
          (masked_vertical self filter_size i x).
Proof. unfold PixelCNN._masked_conv, masked_vertical, pre_activation_channels; simpl. run. Qed.

Lemma masked_conv_horizontal_A (self : PixelCNN.t) (x : Tensor) (filter_size : nat * nat)
      (i : nat) :
  returns (PixelCNN._masked_conv self x filter_size "horizontal" i "A")
          (masked_horizontal_A self filter_size i x).
Proof. unfold PixelCNN._masked_conv, masked_horizontal_A, pre_activation_channels; simpl. run. Qed.

Lemma masked_conv_horizontal_B (self : PixelCNN.t) (x : Tensor) (filter_size : nat * nat)
      (i : nat) :
  returns (PixelCNN._masked_conv self x filter_size "horizontal" i "B")
          (masked_horizontal_B self filter_size i x).
Proof. unfold PixelCNN._masked_conv, masked_horizontal_B, pre_activation_channels; simpl. run. Qed.

Lemma feed_v_map_returns (self : PixelCNN.t) (x : Tensor) (i : nat) :
  returns (PixelCNN._feed_v_map self x i) (feed_projector self i x).
Proof. unfold PixelCNN._feed_v_map, feed_projector, pre_activation_channels. run. Qed.

Lemma gated_call_returns (nf : nat) (s tag : string) (v_map : option Tensor)
      (h : option Vector) (crop : bool) (xW : Tensor) (i : nat) :
  stack_tag s tag ->
  returns (GatedCNN.__call__ (GatedCNN.__init__ nf s v_map h crop) xW i)
          (gated_unit nf tag v_map h crop i xW).
Proof.
  intros Hs.
  assert (E : (if (s =? "vertical")%string then Some "v"
               else if (s =? "horizontal")%string then Some "h" else None) = Some tag)
    by (destruct Hs; reflexivity).
  unfold GatedCNN.__call__, gated_unit, gate, pre_activation,
    merged_latent, merged_feed, cropped.
  cbv zeta.
  cbn [GatedCNN.stack_name GatedCNN.crop_right GatedCNN.v_map GatedCNN.h
       GatedCNN.nb_filters].
  rewrite E. destruct crop, v_map, h; run.
Qed.

Lemma relu_call_returns (nf : nat) (s tag : string) (v_map : option Tensor)
      (h : option Vector) (crop : bool) (xW : Tensor) (i : nat) :
  stack_tag s tag ->
  returns (ReLUCNN.__call__ (ReLUCNN.__init__ nf s v_map h crop) xW i)
          (relu_unit nf tag v_map h crop i xW).
Proof.
  intros Hs.
  assert (E : (if (s =? "vertical")%string then Some "v"
               else if (s =? "horizontal")%string then Some "h" else None) = Some tag)
    by (destruct Hs; reflexivity).
  unfold ReLUCNN.__call__, relu_unit, pre_activation,
    merged_latent, merged_feed, cropped.
  cbv zeta.
  cbn [ReLUCNN.stack_name ReLUCNN.crop_right ReLUCNN.v_map ReLUCNN.h
       ReLUCNN.nb_filters].
  rewrite E. destruct crop, v_map, h; run.
Qed.

Lemma unit_call_returns (self : PixelCNN.t) (s tag : string) (v_map : option Tensor)
      (h : option Vector) (crop : bool) (xW : Tensor) (i : nat) :
  stack_tag s tag ->
  returns (PixelCNN.unit_call self s v_map h crop xW i)
          (activation_unit self tag v_map h crop i xW).
Proof.
  intros Hs. unfold PixelCNN.unit_call, activation_unit.
  destruct (PixelCNN.gated self).
  - now apply gated_call_returns.
  - now apply relu_call_returns.
Qed.

Lemma first_layer_returns (self : PixelCNN.t) (h : option Vector) (x : Tensor) :
  returns (PixelCNN.first_layer self h x) (first_layer_graph self h x).
Proof.
  unfold PixelCNN.first_layer, first_layer_graph, projection.
  eapply returns_bind; [apply masked_conv_vertical | cbv beta].
  eapply returns_bind; [apply feed_v_map_returns | cbv beta].
  eapply returns_bind; [apply unit_call_returns, tag_vertical | cbv beta].
  eapply returns_bind; [apply masked_conv_horizontal_A | cbv beta].
  eapply returns_bind; [apply unit_call_returns, tag_horizontal | cbv beta].
  run.
Qed.

Lemma layer_body_returns (self : PixelCNN.t) (h : option Vector) (i : nat)
      (st : Tensor * Tensor) :
  returns (PixelCNN.layer_body self h i st) (layer_graph self h i st).
Proof.
  destruct st as [v hs]. unfold PixelCNN.layer_body, layer_graph, projection. simpl fst; simpl snd.
  eapply returns_bind; [apply masked_conv_vertical | cbv beta].
  eapply returns_bind; [apply feed_v_map_returns | cbv beta].
  eapply returns_bind; [apply unit_call_returns, tag_vertical | cbv beta].
  eapply returns_bind; [apply masked_conv_horizontal_B | cbv beta].
  eapply returns_bind; [apply unit_call_returns, tag_horizontal | cbv beta].
  run.
Qed.

Lemma for_each_returns (self : PixelCNN.t) (h : option Vector) (l : list nat) :
  forall st, returns (PixelCNN.for_each l (PixelCNN.layer_body self h) st)
                     (layers_graph self h l st).
Proof.
  induction l as [|i l IH]; intros st; simpl.
  - apply returns_ret.
  - eapply returns_bind; [apply layer_body_returns | apply IH].
Qed.

Lemma head_returns (self : PixelCNN.t) (x : Tensor) :
  returns (PixelCNN.head self x) (head_graph self x).
Proof. unfold PixelCNN.head, head_graph; simpl. run. Qed.

Lemma build_layers_returns (self : PixelCNN.t) (x : Tensor) (h : option Vector) :
  returns (PixelCNN._build_layers self x h) (PixelCNN.set_h self h, graph self h x).
Proof.
  unfold PixelCNN._build_layers, graph. simpl.
  eapply returns_bind; [apply first_layer_returns | cbv beta].
  eapply returns_bind; [apply for_each_returns | cbv beta].
  eapply returns_bind; [apply head_returns | cbv beta].
  apply returns_ret.
Qed.

(** * Agreement is preserved by the layers *)

Section LayerAgreement.

Context {T : Type} `{Scalar T}.
Variable W : Weights T.

Lemma sum_upto_ext (n : nat) (f g : nat -> T) :
  (forall i, i < n -> f i = g i) -> sum_upto n f = sum_upto n g.
Proof.
  induction n as [|n IH]; intros E; simpl; [reflexivity|].
  rewrite IH by (intros; apply E; lia). now rewrite E by lia.
Qed.

Lemma Agree_refl (P : nat -> nat -> Prop) (a : FeatureMap T) : Agree P a a.
Proof. split; auto. Qed.

Lemma AgreeO_refl (P : nat -> nat -> Prop) (o : option (FeatureMap T)) : AgreeO P o o.
Proof. destruct o; simpl; auto using Agree_refl. Qed.

Lemma Agree_weaken (P Q : nat -> nat -> Prop) (a a' : FeatureMap T) :
  (forall r c, Q r c -> P r c) -> Agree P a a' -> Agree Q a a'.
Proof. intros I [E A]; split; auto. Qed.

Lemma AgreeO_weaken (P Q : nat -> nat -> Prop) (o o' : option (FeatureMap T)) :
  (forall r c, Q r c -> P r c) -> AgreeO P o o' -> AgreeO Q o o'.
Proof. destruct o, o'; simpl; eauto using Agree_weaken. Qed.

Lemma Agree_shape (P : nat -> nat -> Prop) (a a' : FeatureMap T) :
  Agree P a a' ->
  batch a = batch a' /\ height a = height a' /\ width a = width a' /\
  channels a = channels a'.
Proof. intros [E _]; unfold shape_of in E; now inversion E. Qed.

Lemma agree_conv_pad (P Q : nat -> nat -> Prop) name filters kh kw act pt pb pl pr
      (x x' : FeatureMap T) :
  Agree Q x x' ->
  (forall r c i j, P r c -> i < kh -> j < kw -> pt <= r + i -> pl <= c + j ->
                   r + i - pt < height x -> c + j - pl < width x ->
                   Q (r + i - pt) (c + j - pl)) ->
  AgreeO P (conv2d W name filters (kh, kw) act (zero_padding2d ((pt, pb), (pl, pr)) x))
           (conv2d W name filters (kh, kw) act (zero_padding2d ((pt, pb), (pl, pr)) x')).
Proof.
  intros A HQ. destruct (Agree_shape _ _ _ A) as (Eb & Eh & Ew & Ec).
  destruct A as [_ A]. unfold conv2d, zero_padding2d; simpl.
  rewrite <- Eh, <- Ew, <- Eb, <- Ec.
  match goal with |- AgreeO _ (if ?b then _ else _) _ => destruct b end; simpl; auto.
  split; [reflexivity|]. simpl. intros n r c k Hn Hr Hc Hk HP.
  f_equal. f_equal.
  apply sum_upto_ext; intros i Hi. apply sum_upto_ext; intros j Hj.
  apply sum_upto_ext; intros ch Hch.
  destruct ((pt <=? r + i) && (r + i <? pt + height x) && (pl <=? c + j)
            && (c + j <? pl + width x)) eqn:E; [|reflexivity].
  repeat rewrite andb_true_iff in E. destruct E as [[[E1 E2] E3] E4].
  apply Nat.leb_le in E1, E3. apply Nat.ltb_lt in E2, E4.
  f_equal. apply A; try assumption; try lia.
  apply HQ; try assumption; lia.
Qed.

Lemma agree_conv_1x1 (P : nat -> nat -> Prop) name filters act (x x' : FeatureMap T) :
  Agree P x x' ->
  AgreeO P (conv2d W name filters (1, 1) act x) (conv2d W name filters (1, 1) act x').
Proof.
  intros A. destruct (Agree_shape _ _ _ A) as (Eb & Eh & Ew & Ec).
  destruct A as [_ A]. unfold conv2d.
  rewrite <- Eh, <- Ew, <- Eb, <- Ec.
  match goal with |- AgreeO _ (if ?b then _ else _) _ => destruct b end; [|exact I].
  split; [reflexivity|]. cbn [batch height width channels val].
  intros n r c k Hn Hr Hc Hk HP.
  f_equal. f_equal.
  apply sum_upto_ext; intros i Hi. apply sum_upto_ext; intros j Hj.
  apply sum_upto_ext; intros ch Hch.
  f_equal. replace (r + i) with r by lia. replace (c + j) with c by lia.
  apply A; try assumption; lia.
Qed.

Lemma agree_map_val (P : nat -> nat -> Prop) (f : T -> T) (x x' : FeatureMap T) :
  Agree P x x' -> Agree P (map_val f x) (map_val f x').
Proof.
  intros A. destruct (Agree_shape _ _ _ A) as (Eb & Eh & Ew & Ec).
  destruct A as [_ A]. unfold map_val, shape_of; simpl.
  rewrite <- Eh, <- Ew, <- Eb, <- Ec.
  split; [reflexivity|]. simpl. intros. f_equal. now apply A.
Qed.

Lemma agree_lambda (P : nat -> nat -> Prop) (f : lambda_fn) (x x' : FeatureMap T) :
  f <> shift_down_fn ->
  Agree P x x' -> Agree P (apply_lambda f x) (apply_lambda f x').
Proof.
  intros Hf A. destruct (Agree_shape _ _ _ A) as (Eb & Eh & Ew & Ec).
  destruct f as [| |nf|nf| |]; try congruence; try (now apply agree_map_val);
    destruct A as [_ A]; unfold apply_lambda, _crop_right, shape_of; simpl;
    rewrite <- Eh, <- Ew, <- Eb, <- Ec;
    (split; [reflexivity|]); simpl; intros n r c k Hn Hr Hc Hk HP;
    apply A; try assumption; lia.
Qed.

Lemma agree_shift_down (P Q : nat -> nat -> Prop) (x x' : FeatureMap T) :
  Agree Q x x' ->
  (forall r c, P r c -> 1 <= r -> Q (r - 1) c) ->
  Agree P (_shift_down x) (_shift_down x').
Proof.
  intros A HQ. destruct (Agree_shape _ _ _ A) as (Eb & Eh & Ew & Ec).
  destruct A as [_ A].
  unfold _shift_down, take_rows, zero_padding2d, shape_of; simpl.
  rewrite <- Eh, <- Ew, <- Eb, <- Ec.
  split; [reflexivity|]. simpl. intros n r c k Hn Hr Hc Hk HP.
  destruct (match r with 0 => false | S m' => true end && (r <? S (height x)) && true
            && (c <? width x)) eqn:E; [|reflexivity].
  repeat rewrite andb_true_iff in E. destruct E as [[[E1 E2] E3] E4].
  apply Nat.ltb_lt in E4. destruct r as [|r]; [discriminate|].
  rewrite Nat.sub_0_r. apply A; try assumption; try lia.
  replace (S r - 1) with r in * by lia.
  specialize (HQ (S r) c HP). replace (S r - 1) with r in HQ by lia. apply HQ; lia.
Qed.

Lemma bdim_bidx (a b d i : nat) :
  bdim a b = Some d -> i < d -> bidx a i < a /\ bidx b i < b.
Proof.
  unfold bdim, bidx.
  destruct (Nat.eqb_spec a b); destruct (Nat.eqb_spec a 1); destruct (Nat.eqb_spec b 1);
    intros E; inversion E; subst; lia.
Qed.

Lemma closed_bidx (P : nat -> nat -> Prop) (dh dw r c : nat) :
  closed P -> P r c -> P (bidx dh r) (bidx dw c).
Proof.
  intros HC HP. destruct (HC r c HP) as (H1 & H2 & H3).
  unfold bidx. destruct (dh =? 1), (dw =? 1); assumption.
Qed.

Lemma agree_zip_with (P : nat -> nat -> Prop) (f : T -> T -> T)
      (a a' b b' : FeatureMap T) :
  closed P -> Agree P a a' -> Agree P b b' ->
  AgreeO P (zip_with f a b) (zip_with f a' b').
Proof.
  intros HC A B.
  destruct (Agree_shape _ _ _ A) as (Eb & Eh & Ew & Ec).
  destruct (Agree_shape _ _ _ B) as (Fb & Fh & Fw & Fc).
  destruct A as [_ A]. destruct B as [_ B]. unfold zip_with.
  rewrite <- Eh, <- Ew, <- Eb, <- Ec, <- Fh, <- Fw, <- Fb, <- Fc.
  destruct (bdim (batch a) (batch b)) as [bn|] eqn:D1; simpl; auto.
  destruct (bdim (height a) (height b)) as [bh|] eqn:D2; simpl; auto.
  destruct (bdim (width a) (width b)) as [bw|] eqn:D3; simpl; auto.
  destruct (bdim (channels a) (channels b)) as [bc|] eqn:D4; simpl; auto.
  split; [reflexivity|]. simpl. intros n r c k Hn Hr Hc Hk HP.
  destruct (bdim_bidx _ _ _ _ D1 Hn), (bdim_bidx _ _ _ _ D2 Hr),
           (bdim_bidx _ _ _ _ D3 Hc), (bdim_bidx _ _ _ _ D4 Hk).
  f_equal; [apply A | apply B]; try assumption; apply closed_bidx; assumption.
Qed.

End LayerAgreement.

(** * Agreement through the graph *)

Section GraphAgreement.

Context {T : Type} `{Scalar T}.
Variable W : Weights T.
Variable lat : option (Matrix T).
Variables a a' : FeatureMap T.

Local Abbreviation Rel := (Related W lat a a').

Lemma related_weaken (P Q : nat -> nat -> Prop) (t : Tensor) :
  (forall r c, Q r c -> P r c) -> Rel P t -> Rel Q t.
Proof. unfold Related; apply AgreeO_weaken. Qed.

Lemma related_input (P : nat -> nat -> Prop) shape name :
  Agree P a a' -> Rel P (Input shape name).
Proof.
  intros A. destruct (Agree_shape _ _ _ A) as (Eb & Eh & Ew & Ec).
  unfold Related; simpl. rewrite <- Eh, <- Ew, <- Ec.
  destruct ((fst (fst shape) =? height a) && (snd (fst shape) =? width a)
            && (snd shape =? channels a)); simpl; auto.
Qed.

Lemma related_reshape (P : nat -> nat -> Prop) shape name v :
  Rel P (Reshape shape name v).
Proof. unfold Related; simpl. apply AgreeO_refl. Qed.

Lemma related_conv_pad (P Q : nat -> nat -> Prop) filters kh kw act name pt pb pl pr
      pname (t : Tensor) :
  Rel Q t ->
  (forall r c i j, P r c -> i < kh -> j < kw -> pt <= r + i -> pl <= c + j ->
                   Q (r + i - pt) (c + j - pl)) ->
  Rel P (Conv2D filters (kh, kw) act name (ZeroPadding2D ((pt, pb), (pl, pr)) pname t)).
Proof.
  unfold Related; simpl. intros R HQ.
  destruct (eval W a lat t), (eval W a' lat t); simpl in R; try contradiction; auto.
  apply agree_conv_pad with (Q := Q); auto.
Qed.

Lemma related_conv_1x1 (P : nat -> nat -> Prop) filters act name (t : Tensor) :
  Rel P t -> Rel P (Conv2D filters (1, 1) act name t).
Proof.
  unfold Related; simpl. intros R.
  destruct (eval W a lat t), (eval W a' lat t); simpl in R; try contradiction; auto.
  now apply agree_conv_1x1.
Qed.

Lemma related_lambda (P : nat -> nat -> Prop) f name (t : Tensor) :
  f <> shift_down_fn -> Rel P t -> Rel P (Lambda f name t).
Proof.
  unfold Related; simpl. intros Hf R.
  destruct (eval W a lat t), (eval W a' lat t); simpl in *; try contradiction; auto.
  now apply agree_lambda.
Qed.

Lemma related_shift_down (P Q : nat -> nat -> Prop) name (t : Tensor) :
  Rel Q t -> (forall r c, P r c -> 1 <= r -> Q (r - 1) c) ->
  Rel P (Lambda shift_down_fn name t).
Proof.
  unfold Related; simpl. intros R HQ.
  destruct (eval W a lat t), (eval W a' lat t); simpl in *; try contradiction; auto.
  now apply agree_shift_down with (Q := Q).
Qed.

Lemma related_activation (P : nat -> nat -> Prop) act name (t : Tensor) :
  Rel P t -> Rel P (Activation act name t).
Proof.
  unfold Related; simpl. intros R. destruct act.
  destruct (eval W a lat t), (eval W a' lat t); simpl in *; try contradiction; auto.
  now apply agree_map_val.
Qed.

Lemma related_zip (P : nat -> nat -> Prop) (f : T -> T -> T) (t u : Tensor) :
  closed P -> Rel P t -> Rel P u ->
  AgreeO P
    (match eval W a lat t, eval W a lat u with
     | Some x, Some y => zip_with f x y | _, _ => None end)
    (match eval W a' lat t, eval W a' lat u with
     | Some x, Some y => zip_with f x y | _, _ => None end).
Proof.
  unfold Related. intros HC R1 R2.
  destruct (eval W a lat t), (eval W a' lat t); simpl in *; try contradiction; auto;
    destruct (eval W a lat u), (eval W a' lat u); simpl in *; try contradiction; auto.
  now apply agree_zip_with.
Qed.

Lemma related_add (P : nat -> nat -> Prop) name (t u : Tensor) :
  closed P -> Rel P t -> Rel P u -> Rel P (Add name t u).
Proof. intros; unfold Related; simpl; now apply related_zip. Qed.

Lemma related_multiply (P : nat -> nat -> Prop) name (t u : Tensor) :
  closed P -> Rel P t -> Rel P u -> Rel P (Multiply name t u).
Proof. intros; unfold Related; simpl; now apply related_zip. Qed.

Lemma related_lambda_sum (P : nat -> nat -> Prop) name (t u : Tensor) :
  closed P -> Rel P t -> Rel P u -> Rel P (LambdaSum name t u).
Proof. intros; unfold Related; simpl; now apply related_zip. Qed.

End GraphAgreement.

(** * Causality of the built graph *)

Lemma closed_upto (r0 c0 : nat) : closed (upto r0 c0).
Proof. unfold closed, upto; intros; lia. Qed.

Lemma closed_rows_above (r0 : nat) : closed (rows_above r0).
Proof. unfold closed, rows_above; intros; lia. Qed.

Section Causality.

Context {T : Type} `{Scalar T}.
Variable W : Weights T.
Variable lat : option (Matrix T).
Variables a a' : FeatureMap T.
Variable self : PixelCNN.t.
Variable h : option Vector.
Variables r0 c0 : nat.

Local Abbreviation Rel := (Related W lat a a').

Lemma related_pre_activation (P : nat -> nat -> Prop) units tag v_map crop i xW :
  closed P -> Rel P xW ->
  match v_map with Some v => Rel P v | None => True end ->
  Rel P (pre_activation units tag v_map h crop i xW).
Proof.
  intros HC RX RV. unfold pre_activation, merged_latent, merged_feed, cropped.
  assert (R1 : Rel P (if crop then Lambda crop_right_fn ("h_crop_right_" ++ str i) xW
                      else xW)).
  { destruct crop; [apply related_lambda; [discriminate | assumption] | assumption]. }
  assert (R2 : Rel P (match v_map with
                      | Some v => Add ("h_merge_v_" ++ str i)
                                    (if crop
                                     then Lambda crop_right_fn ("h_crop_right_" ++ str i) xW
                                     else xW) v
                      | None => if crop
                                then Lambda crop_right_fn ("h_crop_right_" ++ str i) xW
                                else xW
                      end)).
  { destruct v_map; [now apply related_add | assumption]. }
  destruct h; [|assumption].
  apply related_lambda_sum; [assumption | assumption | apply related_reshape].
Qed.

Lemma related_activation_unit (P : nat -> nat -> Prop) tag v_map crop i xW :
  closed P -> Rel P xW ->
  match v_map with Some v => Rel P v | None => True end ->
  Rel P (activation_unit self tag v_map h crop i xW).
Proof.
  intros HC RX RV. unfold activation_unit, gated_unit, relu_unit, gate.
  destruct (PixelCNN.gated self).
  - apply related_multiply; [assumption | |];
      (apply related_lambda; [discriminate|]);
      (apply related_lambda; [discriminate|]);
      now apply related_pre_activation.
  - apply related_activation. now apply related_pre_activation.
Qed.

Lemma related_masked_vertical filter_size i x :
  Rel (rows_above r0) x -> Rel (rows_above r0) (masked_vertical self filter_size i x).
Proof.
  intros R. unfold masked_vertical.
  apply related_conv_pad with (Q := rows_above r0); [assumption|].
  unfold rows_above. intros; lia.
Qed.

Lemma related_feed_projector i x :
  Rel (rows_above r0) x -> Rel (upto r0 c0) (feed_projector self i x).
Proof.
  intros R. unfold feed_projector. apply related_conv_1x1.
  apply related_shift_down with (Q := rows_above r0); [assumption|].
  unfold upto, rows_above. intros; lia.
Qed.

Lemma related_masked_horizontal_A filter_size i x :
  Rel (before r0 c0) x -> Rel (upto r0 c0) (masked_horizontal_A self filter_size i x).
Proof.
  intros R. unfold masked_horizontal_A.
  apply related_conv_pad with (Q := before r0 c0); [assumption|].
  unfold upto, before. intros; lia.
Qed.

Lemma related_masked_horizontal_B filter_size i x :
  Rel (upto r0 c0) x -> Rel (upto r0 c0) (masked_horizontal_B self filter_size i x).
Proof.
  intros R. unfold masked_horizontal_B.
  apply related_conv_pad with (Q := upto r0 c0); [assumption|].
  unfold upto. intros; lia.
Qed.

(** The invariant of the layer loop. *)
Lemma related_first_layer x :
  Rel (before r0 c0) x ->
  Rel (rows_above r0) (fst (first_layer_graph self h x)) /\
  Rel (upto r0 c0) (snd (first_layer_graph self h x)).
Proof.
  intros R. unfold first_layer_graph, projection; simpl.
  assert (RV : Rel (rows_above r0) (masked_vertical self (PixelCNN.filter_size_1st self) 0 x)).
  { apply related_masked_vertical. apply related_weaken with (P := before r0 c0); auto.
    unfold rows_above, before; intros; lia. }
  split.
  - apply related_activation_unit; auto using closed_rows_above.
  - apply related_conv_1x1. apply related_activation_unit.
    + apply closed_upto.
    + now apply related_masked_horizontal_A.
    + now apply related_feed_projector.
Qed.

Lemma related_layer i st :
  Rel (rows_above r0) (fst st) -> Rel (upto r0 c0) (snd st) ->
  Rel (rows_above r0) (fst (layer_graph self h i st)) /\
  Rel (upto r0 c0) (snd (layer_graph self h i st)).
Proof.
  intros RV RH. unfold layer_graph, projection; simpl.
  assert (RM : Rel (rows_above r0)
                   (masked_vertical self (PixelCNN.filter_size self) i (fst st)))
    by now apply related_masked_vertical.
  split.
  - apply related_activation_unit; auto using closed_rows_above.
  - apply related_add; [apply closed_upto | | assumption].
    apply related_conv_1x1. apply related_activation_unit.
    + apply closed_upto.
    + now apply related_masked_horizontal_B.
    + now apply related_feed_projector.
Qed.

Lemma related_layers l : forall st,
  Rel (rows_above r0) (fst st) -> Rel (upto r0 c0) (snd st) ->
  Rel (rows_above r0) (fst (layers_graph self h l st)) /\
  Rel (upto r0 c0) (snd (layers_graph self h l st)).
Proof.
  induction l as [|i l IH]; intros st RV RH; simpl; [now split|].
  destruct (related_layer i st RV RH) as [RV' RH']. now apply IH.
Qed.

Lemma related_graph x :
  Rel (before r0 c0) x -> Rel (upto r0 c0) (graph self h x).
Proof.
  intros R. unfold graph, head_graph.
  destruct (related_first_layer x R) as [RV RH].
  destruct (related_layers (range 1 (PixelCNN.nb_pixelcnn_layers self)) _ RV RH) as [_ RG].
  now repeat apply related_conv_1x1.
Qed.

End Causality.

(** * The model made by [build_model] *)

Lemma build_model_returns (self : PixelCNN.t) :
  returns (PixelCNN.build_model self) (built_instance self).
Proof.
  unfold PixelCNN.build_model, built_instance, built_model, built_graph, latent_input,
    input_image.
  destruct (PixelCNN.conditional self) eqn:C.
  - eapply returns_bind; [apply build_layers_returns | cbv beta]. apply returns_ret.
  - eapply returns_bind; [apply build_layers_returns | cbv beta]. apply returns_ret.
Qed.

Lemma build_model_result (self : PixelCNN.t) (w : World) :
  result (PixelCNN.build_model self w) = inr (built_instance self).
Proof. apply returns_result, build_model_returns. Qed.

Lemma build_model_model (self self' : PixelCNN.t) (w : World) :
  result (PixelCNN.build_model self w) = inr self' ->
  PixelCNN.model self' = Some (built_model self).
Proof.
  intros E. rewrite build_model_result in E. now inversion E; subst.
Qed.

Lemma pixel_agree {T} `{Scalar T} (P : nat -> nat -> Prop) (o o' : option (FeatureMap T))
      (n r c k : nat) :
  AgreeO P o o' -> P r c -> pixel o n r c k = pixel o' n r c k.
Proof.
  destruct o as [y|], o' as [y'|]; simpl; try contradiction; auto.
  intros A HP. destruct (Agree_shape _ _ _ A) as (Eb & Eh & Ew & Ec).
  destruct A as [_ A]. rewrite <- Eb, <- Eh, <- Ew, <- Ec.
  destruct ((n <? batch y) && (r <? height y) && (c <? width y) && (k <? channels y)) eqn:E;
    [|reflexivity].
  repeat rewrite andb_true_iff in E. destruct E as [[[E1 E2] E3] E4].
  apply Nat.ltb_lt in E1, E2, E3, E4. f_equal. now apply A.
Qed.

Lemma predict_agree {T} `{Scalar T} (W : Weights T) (self : PixelCNN.t)
      (x x' : FeatureMap T) (lat : option (Matrix T)) (r0 c0 batch_size : nat) :
  Agree (before r0 c0) x x' ->
  AgreeO (upto r0 c0)
         (model_predict W (built_model self) (model_inputs x lat) batch_size)
         (model_predict W (built_model self) (model_inputs x' lat) batch_size).
Proof.
  intros A. destruct (Agree_shape _ _ _ A) as (Eb & _).
  unfold model_predict, built_model, model_inputs; simpl.
  destruct (latent_input self) as [v|], lat as [l|]; simpl; auto.
  - rewrite <- Eb. destruct (batch x =? mbatch l); simpl; auto.
    apply related_graph. now apply related_input.
  - apply related_graph. now apply related_input.
Qed.

(** * Claims *)

(** C1 — Causality.  For every configuration with at least one layer, gated
    or ReLU, conditional or not, and every position (r, c): if two input
    images of the same shape differ only at positions strictly after (r, c)
    in raster order, the output of the built model at (r, c) is the same
    for both (for the same latent vector, in every batch entry and channel). *)
Theorem causality {T} `{Scalar T} (W : Weights T) (self self' : PixelCNN.t) (w : World)
        (m : KerasModel) (x x' : FeatureMap T) (lat : option (Matrix T))
        (r c batch_size n k : nat) :
  1 <= PixelCNN.nb_pixelcnn_layers self ->
  result (PixelCNN.build_model self w) = inr self' ->
  PixelCNN.model self' = Some m ->
  Agree (fun r' c' => ~ strictly_after r c r' c') x x' ->
  pixel (model_predict W m (model_inputs x lat) batch_size) n r c k =
  pixel (model_predict W m (model_inputs x' lat) batch_size) n r c k.
Proof.
  intros _ B M A. rewrite (build_model_model _ _ _ B) in M. inversion M; subst m.
  apply pixel_agree with (P := upto r c); [|unfold upto; lia].
  apply predict_agree. apply Agree_weaken with (2 := A).
  unfold before, strictly_after. intros; lia.
Qed.

Lemma example_images_agree :
  Agree (fun r' c' => ~ strictly_after 1 1 r' c') example_image example_image'.
Proof.
  split; [reflexivity|]. simpl. intros n r c k _ _ _ _ NA.
  destruct (Nat.eqb_spec r 1), (Nat.eqb_spec c 2), (Nat.eqb_spec r 2); simpl;
    try reflexivity; exfalso; apply NA; unfold strictly_after; lia.
Defined.

Lemma causality_witness :
  pixel (model_predict example_weights (built_model (example_instance true false 2))
                       (model_inputs example_image None) 1) 0 1 1 0 =
  pixel (model_predict example_weights (built_model (example_instance true false 2))
                       (model_inputs example_image' None) 1) 0 1 1 0.
Proof.
  refine (causality example_weights (example_instance true false 2)
                    (built_instance (example_instance true false 2)) example_world
                    (built_model (example_instance true false 2))
                    example_image example_image' None 1 1 1 0 0 _ _ _ _).
  - vm_compute; lia.
  - vm_compute; reflexivity.
  - vm_compute; reflexivity.
  - exact example_images_agree.
Defined.


(** C4 — The vertical feed projector builds a shift-down layer followed by
    a 1x1 convolution of the pre-activation channel width.  Wherever its
    input has a value, of any height H, the shifted map has the same shape,
    its row 0 is zero, and its row r is the input's row r-1 for every
    1 <= r <= H-1; the projection of a map with at least one row and one
    column then has that height and width and the convolution's channels. *)
Theorem shift_down_rows {T} `{Scalar T} (W : Weights T) (image : FeatureMap T)
        (lat : option (Matrix T)) (self : PixelCNN.t) (t : Tensor) (i : nat) (w : World)
        (x : FeatureMap T) :
  eval W image lat t = Some x ->
  let units :=
    if PixelCNN.gated self then 2 * PixelCNN.nb_filters self else PixelCNN.nb_filters self in
  exists shifted y,
    result (PixelCNN._feed_v_map self t i w) =
      inr (Conv2D units (1, 1) None (Some ("v_1x1_conv_" ++ str i)%string) shifted) /\
    eval W image lat shifted = Some y /\
    shape_of y = shape_of x /\
    (forall n c k, val y n 0 c k = zero) /\
    (forall n r c k, 1 <= r -> r < height x -> c < width x ->
                     val y n r c k = val x n (r - 1) c k) /\
    (1 <= units -> 1 <= height x -> 1 <= width x ->
     exists z,
       eval W image lat
            (Conv2D units (1, 1) None (Some ("v_1x1_conv_" ++ str i)%string) shifted) =
         Some z /\
       shape_of z = (batch x, height x, width x, units)).
Proof.
  intros E units.
  exists (Lambda shift_down_fn ("v_shift_down" ++ str i) t), (_shift_down x).
  split; [|split; [|split; [|split; [|split]]]].
  - apply returns_result. exact (feed_v_map_returns self t i).
  - cbn [eval]. now rewrite E.
  - unfold _shift_down, take_rows, zero_padding2d, shape_of.
    cbn [batch height width channels fst snd]. shape_eq.
  - reflexivity.
  - intros n r c k Hr1 Hr Hc.
    unfold _shift_down, take_rows, zero_padding2d. cbn [val].
    replace (1 <=? r) with true by (symmetry; apply Nat.leb_le; lia).
    replace (r <? 1 + height x) with true by (symmetry; apply Nat.ltb_lt; lia).
    replace (c <? 0 + width x) with true by (symmetry; apply Nat.ltb_lt; lia).
    cbn [andb Nat.leb]. now rewrite Nat.sub_0_r.
  - intros Hu Hh Hw. cbn [eval]. rewrite E. cbn [apply_lambda]. unfold conv2d.
    assert (Sh : height (_shift_down x) = height x).
    { unfold _shift_down, take_rows, zero_padding2d, shape_of.
      cbn [batch height width channels fst snd]. lia. }
    assert (Sw : width (_shift_down x) = width x).
    { unfold _shift_down, take_rows, zero_padding2d, shape_of.
      cbn [batch height width channels fst snd]. lia. }
    rewrite Sh, Sw.
    assert (C : (1 <=? units) && (1 <=? 1) && (1 <=? 1) &&
                (1 <=? height x) && (1 <=? width x) = true).
    { rewrite !andb_true_iff, !Nat.leb_le. lia. }
    rewrite C. eexists. split; [reflexivity|].
    unfold shape_of. cbn [batch height width channels]. shape_eq.
Qed.

Lemma shift_down_rows_witness :
  exists shifted y,
    result (PixelCNN._feed_v_map (example_instance true false 1)
              (Input (3, 3, 1) "input_image") 0 example_world) =
      inr (Conv2D 4 (1, 1) None (Some "v_1x1_conv_0") shifted) /\
    eval example_weights example_image None shifted = Some y /\
    shape_of y = (1, 3, 3, 1) /\
    val y 0 0 1 0 = 0%Z /\
    val y 0 2 1 0 = val example_image 0 1 1 0.
Proof.
  destruct (shift_down_rows example_weights example_image None
              (example_instance true false 1) (Input (3, 3, 1) "input_image") 0
              example_world example_image)
    as (shifted & y & E1 & E2 & E3 & E4 & E5 & _); [reflexivity|].
  exists shifted, y. split; [exact E1|]. split; [exact E2|]. split; [exact E3|].
  split; [apply E4 | apply E5; simpl; lia].
Defined.

(** C8 — code: [predict] is a class method, so [self.model] is looked up on
    the class, which has no such attribute: called on any instance, built
    or not, it raises AttributeError instead of returning the prediction. *)
Theorem predict_raises {T} `{Scalar T} (W : Weights T) (instance : PixelCNN.t)
        (x : model_input T) (batch_size : nat) (w : World) :
  PixelCNN.call_predict W instance x batch_size w = (inl (AttributeError "model"), w).
Proof. reflexivity. Qed.

Lemma bdim_same (d : nat) : bdim d d = Some d.
Proof. unfold bdim. now rewrite Nat.eqb_refl. Qed.










(** * The layer loop *)

Lemma range_snoc (i : nat) : 1 <= i -> range 1 (S i) = range 1 i ++ [i].
Proof.
  intros Hi. unfold range. replace (S i - 1) with (S (i - 1)) by lia.
  rewrite seq_S. repeat f_equal; lia.
Qed.

Lemma range_split (i n : nat) : i < n -> range 1 n = range 1 (S i) ++ range (S i) n.
Proof.
  intros Hi. unfold range. replace (n - 1) with ((S i - 1) + (n - S i)) by lia.
  rewrite seq_app. repeat f_equal; lia.
Qed.

Lemma layers_graph_app (self : PixelCNN.t) (h : option Vector) (l1 l2 : list nat)
      (st : Tensor * Tensor) :
  layers_graph self h (l1 ++ l2) st = layers_graph self h l2 (layers_graph self h l1 st).
Proof. unfold layers_graph. apply fold_left_app. Qed.

Lemma stacks_after_returns (self : PixelCNN.t) (h : option Vector) (x : Tensor) (i : nat) :
  returns (stacks_after self h x i)
          (layers_graph self h (range 1 (S i)) (first_layer_graph self h x)).
Proof.
  unfold stacks_after.
  eapply returns_bind; [apply first_layer_returns | apply for_each_returns].
Qed.


Lemma graph_after (self : PixelCNN.t) (h : option Vector) (x : Tensor) (i : nat) :
  i < PixelCNN.nb_pixelcnn_layers self ->
  graph self h x =
  head_graph self
    (snd (layers_graph self h (range (S i) (PixelCNN.nb_pixelcnn_layers self))
            (layers_graph self h (range 1 (S i)) (first_layer_graph self h x)))).
Proof.
  intros Hi. unfold graph. now rewrite (range_split i), layers_graph_app by assumption.
Qed.

Lemma no_residual_in_unit (self : PixelCNN.t) (tag : string) (v_map : option Tensor)
      (h : option Vector) (crop : bool) (i : nat) (xW : Tensor) :
  has_residual_add xW = false ->
  match v_map with Some v => has_residual_add v = false | None => True end ->
  has_residual_add (activation_unit self tag v_map h crop i xW) = false.
Proof.
  intros HX HV.
  unfold activation_unit, gated_unit, relu_unit, gate, pre_activation, merged_latent,
    merged_feed, cropped.
  destruct (PixelCNN.gated self), h, v_map, crop; cbn [has_residual_add];
    rewrite ?HX, ?HV; reflexivity.
Qed.



Lemma prefix_app (s t : string) : String.prefix s (s ++ t) = true.
Proof.
  induction s as [|a s IH]; [now destruct t|].
  simpl. destruct (Ascii.ascii_dec a a); [exact IH | contradiction].
Qed.




(** C10, as the code has it — A stack kind that is neither 'vertical' nor
    'horizontal' makes the call fail with an unbound local variable.  The
    masked-convolution builder fails before any tensor operation.  An
    activation unit, given an input and a feed that Keras accepts in the
    crop and in the addition, fails when it first needs the name tag: after
    the crop-right and the vertical-feed addition when these are requested,
    and before every other operation. *)
Theorem unknown_stack_kind (s : string) :
  s <> "vertical" -> s <> "horizontal" ->
  (forall self x filter_size i mask_type w,
      PixelCNN._masked_conv self x filter_size s i mask_type w =
        (inl (UnboundLocalError "res"), w) /\
      fails_before_any_op (PixelCNN._masked_conv self x filter_size s i mask_type) w) /\
  (forall (nf : nat) (v_map : option Tensor) (h : option Vector) (crop : bool)
          (xW : Tensor) (i : nat) (w : World),
      static_shape (merged_feed v_map i (cropped crop i xW)) <> None ->
      let performed :=
        (if crop then [TensorOp (Lambda crop_right_fn ("h_crop_right_" ++ str i) xW)]
         else []) ++
        match v_map with
        | Some v => [TensorOp (Add ("h_merge_v_" ++ str i) (cropped crop i xW) v)]
        | None => []
        end in
      GatedCNN.__call__ (GatedCNN.__init__ nf s v_map h crop) xW i w =
        (inl (UnboundLocalError "stack_tag"), log w performed) /\
      ReLUCNN.__call__ (ReLUCNN.__init__ nf s v_map h crop) xW i w =
        (inl (UnboundLocalError "stack_tag"), log w performed)).
Proof.
  intros Hv Hh.
  apply String.eqb_neq in Hv, Hh.
  split.
  - intros self x filter_size i mask_type w.
    assert (E : PixelCNN._masked_conv self x filter_size s i mask_type w =
                (inl (UnboundLocalError "res"), w)).
    { unfold PixelCNN._masked_conv. rewrite Hv, Hh. reflexivity. }
    split; [exact E|]. unfold fails_before_any_op. rewrite E.
    split; [now exists (UnboundLocalError "res") | reflexivity].
  - intros nf v_map h crop xW i w _ performed. subst performed. destruct w as [f o l fl].
    split.
    + unfold GatedCNN.__call__. cbv zeta.
      cbn [GatedCNN.stack_name GatedCNN.crop_right GatedCNN.v_map GatedCNN.h
           GatedCNN.nb_filters].
      rewrite Hv, Hh.
      destruct crop, v_map, h;
        cbv [bind call_layer call_vlayer ret raise read_local log cropped
             fs image_dim_ordering layers files];
        rewrite <- ?app_assoc; cbn [app]; rewrite ?app_nil_r; reflexivity.
    + unfold ReLUCNN.__call__. cbv zeta.
      cbn [ReLUCNN.stack_name ReLUCNN.crop_right ReLUCNN.v_map ReLUCNN.h
           ReLUCNN.nb_filters].
      rewrite Hv, Hh.
      destruct crop, v_map, h;
        cbv [bind call_layer call_vlayer ret raise read_local log cropped
             fs image_dim_ordering layers files];
        rewrite <- ?app_assoc; cbn [app]; rewrite ?app_nil_r; reflexivity.
Qed.

Lemma unknown_stack_kind_witness :
  GatedCNN.__call__ (GatedCNN.__init__ 2 "diagonal" (Some example_v_feed) None true)
                    example_h_masked 0 example_world =
    (inl (UnboundLocalError "stack_tag"),
     log example_world
         [TensorOp (Lambda crop_right_fn "h_crop_right_0" example_h_masked);
          TensorOp (Add "h_merge_v_0" (Lambda crop_right_fn "h_crop_right_0" example_h_masked)
                        example_v_feed)]).
Proof.
  destruct (unknown_stack_kind "diagonal") as [_ U];
    [discriminate | discriminate |].
  refine (proj1 (U 2 (Some example_v_feed) None true example_h_masked 0 example_world _)).
  vm_compute. discriminate.
Defined.

(** C10, as stated, fails for a gated unit asked to crop: the crop is
    performed before the failure. *)
Lemma fails_before_any_op_counterexample :
  ~ fails_before_any_op
      (GatedCNN.__call__ (GatedCNN.__init__ 2 "diagonal" None None true)
                         (Input (3, 3, 1) "input_image") 0)
      example_world.
Proof. intros [_ L]. vm_compute in L. discriminate L. Qed.

(** * The constructor and the filesystem *)

Lemma under_refl (d : string) : under d d = true.
Proof. unfold under. now rewrite String.eqb_refl. Qed.

Lemma not_under_neq (d p : string) : under d p = false -> (d =? p)%string = false.
Proof. unfold under. intros E. now apply orb_false_iff in E. Qed.

Lemma rmtree_removes (d : string) (l : list string) :
  existsb (String.eqb d) (filter (fun p => negb (under d p)) l) = false.
Proof.
  induction l as [|p l IH]; [reflexivity|]. simpl.
  destruct (under d p) eqn:U; simpl; [exact IH|].
  now rewrite (not_under_neq _ _ U), IH.
Qed.

Lemma in_existsb (s : string) (l : list string) :
  In s l -> existsb (String.eqb s) l = true.
Proof.
  intros I. apply existsb_exists. exists s. split; [exact I | apply String.eqb_refl].
Qed.

Lemma init_world (kw : PixelCNN.Kw.t) (w : World) :
  let d := "./block_cnn_logs" in
  world (PixelCNN.__init__ kw w) =
    if existsb (String.eqb d) (fs w)
    then if existsb (String.eqb d) (files w)
         then mkWorld (fs w) "tf" (layers w) (files w)
         else mkWorld (d :: filter (fun p => negb (under d p)) (fs w)) "tf" (layers w)
                      (filter (fun p => negb (String.eqb d p)) (files w))
    else mkWorld (d :: fs w) "tf" (layers w)
                 (filter (fun p => negb (String.eqb d p)) (files w)).
Proof.
  intros d. destruct w as [f o l fl].
  unfold PixelCNN.__init__, bind, set_image_dim_ordering, path_exists, rmtree, makedirs, ret.
  cbn [fs image_dim_ordering layers files]. fold d.
  destruct (existsb (String.eqb d) f) eqn:Ex;
    cbn [negb fs image_dim_ordering layers files]; rewrite Ex; cbn [negb].
  - destruct (existsb (String.eqb d) fl) eqn:Fx; [reflexivity|].
    cbn [fs image_dim_ordering layers files]. now rewrite rmtree_removes.
  - reflexivity.
Qed.





(** * Shapes through the graph *)

Lemma odd_half (k : nat) : Nat.odd k = true -> k = 2 * (k / 2) + 1.
Proof.
  intros O. apply Nat.odd_spec in O. destruct O as [m E].
  pose proof (Nat.div_mod_eq k 2) as D.
  pose proof (Nat.mod_upper_bound k 2) as B. lia.
Qed.

Section Shapes.

Context {T : Type} `{Scalar T}.
Variable W : Weights T.
Variable x : FeatureMap T.
Variable lat : option (Matrix T).

Local Abbreviation Sh := (Shaped W x lat).

Lemma shaped_input (shape : nat * nat * nat) (name : string) :
  shape = (height x, width x, channels x) ->
  Sh (shape_of x) (Input shape name).
Proof.
  intros ->. exists x. cbn [eval fst snd]. rewrite !Nat.eqb_refl. now split.
Qed.

Lemma shaped_conv_pad b h w c filters kh kw act name pt pb pl pr pname t :
  Sh (b, h, w, c) t -> 1 <= filters -> 1 <= kh -> 1 <= kw ->
  kh <= pt + h + pb -> kw <= pl + w + pr ->
  Sh (b, pt + h + pb + 1 - kh, pl + w + pr + 1 - kw, filters)
     (Conv2D filters (kh, kw) act name (ZeroPadding2D ((pt, pb), (pl, pr)) pname t)).
Proof.
  intros (y & E & S) Hf Hkh Hkw Hh Hw. unfold shape_of in S. inversion S; subst.
  unfold Shaped. cbn [eval]. rewrite E. unfold conv2d, zero_padding2d.
  cbn [batch height width channels].
  assert (C : (1 <=? filters) && (1 <=? kh) && (1 <=? kw) &&
              (kh <=? pt + height y + pb) && (kw <=? pl + width y + pr) = true).
  { rewrite !andb_true_iff, !Nat.leb_le. lia. }
  rewrite C. eexists; split; reflexivity.
Qed.

Lemma shaped_conv_1x1 b h w c filters act name t :
  Sh (b, h, w, c) t -> 1 <= filters -> 1 <= h -> 1 <= w ->
  Sh (b, h, w, filters) (Conv2D filters (1, 1) act name t).
Proof.
  intros (y & E & S) Hf Hh Hw. unfold shape_of in S. inversion S; subst.
  unfold Shaped. cbn [eval]. rewrite E. unfold conv2d.
  assert (C : (1 <=? filters) && (1 <=? 1) && (1 <=? 1) &&
              (1 <=? height y) && (1 <=? width y) = true).
  { rewrite !andb_true_iff, !Nat.leb_le. lia. }
  rewrite C. eexists; split; [reflexivity|].
  unfold shape_of; cbn [batch height width channels]. repeat f_equal; lia.
Qed.

Lemma shaped_lambda b h w c f name t :
  Sh (b, h, w, c) t ->
  Sh (match f with
      | crop_right_fn => (b, h, w - 1, c)
      | slice_f nf => (b, h, w, Nat.min nf c)
      | slice_g nf => (b, h, w, c - nf)
      | _ => (b, h, w, c)
      end) (Lambda f name t).
Proof.
  intros (y & E & S). unfold shape_of in S. inversion S; subst.
  unfold Shaped. cbn [eval]. rewrite E. eexists; split; [reflexivity|].
  destruct f; unfold apply_lambda, _crop_right, _shift_down, take_rows, zero_padding2d,
    map_val, shape_of; cbn [batch height width channels fst snd];
    repeat f_equal; lia.
Qed.

Lemma shaped_activation s act name t : Sh s t -> Sh s (Activation act name t).
Proof.
  intros (y & E & S). unfold Shaped. cbn [eval]. destruct act. rewrite E.
  eexists; split; [reflexivity | exact S].
Qed.

Lemma zip_with_shape (f : T -> T -> T) (p q : FeatureMap T) b h w c :
  shape_of p = (b, h, w, c) ->
  shape_of q = (b, h, w, c) \/ shape_of q = (b, 1, 1, c) ->
  exists y, zip_with f p q = Some y /\ shape_of y = (b, h, w, c).
Proof.
  intros Sp Sq. unfold shape_of in *. inversion Sp; subst. unfold zip_with.
  assert (D : forall d, bdim d 1 = Some d).
  { intros d. unfold bdim. destruct (Nat.eqb_spec d 1); [now subst|reflexivity]. }
  destruct Sq as [Sq|Sq]; injection Sq as Eb Eh Ew Ec; rewrite Eb, Eh, Ew, Ec.
  - rewrite !bdim_same. eexists; split; reflexivity.
  - rewrite !bdim_same, !D. eexists; split; reflexivity.
Qed.

Lemma shaped_add b h w c name t u :
  Sh (b, h, w, c) t -> Sh (b, h, w, c) u -> Sh (b, h, w, c) (Add name t u).
Proof.
  intros (p & Ep & Sp) (q & Eq & Sq). unfold Shaped. cbn [eval]. rewrite Ep, Eq.
  apply zip_with_shape; auto.
Qed.

Lemma shaped_multiply b h w c name t u :
  Sh (b, h, w, c) t -> Sh (b, h, w, c) u -> Sh (b, h, w, c) (Multiply name t u).
Proof.
  intros (p & Ep & Sp) (q & Eq & Sq). unfold Shaped. cbn [eval]. rewrite Ep, Eq.
  apply zip_with_shape; auto.
Qed.

Lemma shaped_lambda_sum b h w c name t u :
  Sh (b, h, w, c) t -> Sh (b, 1, 1, c) u -> Sh (b, h, w, c) (LambdaSum name t u).
Proof.
  intros (p & Ep & Sp) (q & Eq & Sq). unfold Shaped. cbn [eval]. rewrite Ep, Eq.
  apply zip_with_shape; auto.
Qed.

Lemma shaped_latent_projection (l : Matrix T) units dim n1 n2 n3 :
  lat = Some l -> mdim l = dim ->
  Sh (mbatch l, 1, 1, units)
     (Reshape (1, 1, units) n1 (Dense units n2 (InputVec dim n3))).
Proof.
  intros -> <-. unfold Shaped. cbn [eval eval_vec]. rewrite Nat.eqb_refl.
  unfold reshape, dense. cbn [mdim mbatch].
  replace (units =? 1 * 1 * units) with true by (symmetry; apply Nat.eqb_eq; lia).
  eexists; split; reflexivity.
Qed.

Lemma eval_vec_dim (v : Vector) (m : Matrix T) :
  eval_vec W lat v = Some m -> mdim m = static_dim v.
Proof.
  destruct v as [dim name | units name v]; cbn [eval_vec static_dim].
  - destruct lat as [l|]; [|discriminate].
    destruct (Nat.eqb_spec (mdim l) dim); [|discriminate]. now intros [= <-].
  - destruct (eval_vec W lat v); [|discriminate]. now intros [= <-].
Qed.

Lemma zip_with_static (f : T -> T -> T) (p q y : FeatureMap T) :
  zip_with f p q = Some y ->
  static_broadcast (Some (height p, width p, channels p))
                   (Some (height q, width q, channels q)) =
    Some (height y, width y, channels y).
Proof.
  unfold zip_with, static_broadcast.
  destruct (bdim (batch p) (batch q)); [|discriminate].
  destruct (bdim (height p) (height q)); [|discriminate].
  destruct (bdim (width p) (width q)); [|discriminate].
  destruct (bdim (channels p) (channels q)); [|discriminate].
  now intros [= <-].
Qed.

(** Where a tensor has a value, Keras has inferred the shape of that value. *)
Lemma eval_static_shape (t : Tensor) : forall y,
  eval W x lat t = Some y -> static_shape t = Some (height y, width y, channels y).
Proof.
  induction t as [s n | s n v | p n t IH | f k a n t IH | f n t IH | n t1 IH1 t2 IH2
                  | n t1 IH1 t2 IH2 | n t1 IH1 t2 IH2 | a n t IH];
    intros y E; cbn [eval static_shape] in *.
  - destruct s as [[sh sw] sc]. cbn [fst snd] in E.
    destruct (Nat.eqb_spec sh (height x)); [|discriminate].
    destruct (Nat.eqb_spec sw (width x)); [|discriminate].
    destruct (Nat.eqb_spec sc (channels x)); [|discriminate].
    injection E as <-. now subst.
  - destruct (eval_vec W lat v) as [m|] eqn:Ev; [|discriminate].
    apply eval_vec_dim in Ev. destruct s as [[th tw] tc]. unfold reshape in E.
    rewrite <- Ev. destruct (mdim m =? th * tw * tc); [|discriminate].
    now injection E as <-.
  - destruct (eval W x lat t) as [z|]; [|discriminate]. rewrite (IH z eq_refl).
    destruct p as [[pt pb] [pl pr]]. now injection E as <-.
  - destruct (eval W x lat t) as [z|]; [|discriminate]. rewrite (IH z eq_refl).
    destruct k as [kh kw]. unfold conv2d in E.
    destruct ((1 <=? f) && (1 <=? kh) && (1 <=? kw) && (kh <=? height z) && (kw <=? width z));
      [|discriminate].
    now injection E as <-.
  - destruct (eval W x lat t) as [z|]; [|discriminate]. rewrite (IH z eq_refl).
    injection E as <-. now destruct f.
  - destruct (eval W x lat t1) as [p|]; [|discriminate].
    destruct (eval W x lat t2) as [q|]; [|discriminate].
    rewrite (IH1 p eq_refl), (IH2 q eq_refl). exact (zip_with_static _ _ _ _ E).
  - destruct (eval W x lat t1) as [p|]; [|discriminate].
    destruct (eval W x lat t2) as [q|]; [|discriminate].
    rewrite (IH1 p eq_refl), (IH2 q eq_refl). exact (zip_with_static _ _ _ _ E).
  - destruct (eval W x lat t1) as [p|]; [|discriminate].
    destruct (eval W x lat t2) as [q|]; [|discriminate].
    rewrite (IH1 p eq_refl), (IH2 q eq_refl). exact (zip_with_static _ _ _ _ E).
  - destruct a. destruct (eval W x lat t) as [z|]; [|discriminate].
    rewrite (IH z eq_refl). now injection E as <-.
Qed.

End Shapes.

Section GraphShapes.

Context {T : Type} `{Scalar T}.
Variable W : Weights T.
Variable x : FeatureMap T.
Variable lat : option (Matrix T).
Variable self : PixelCNN.t.
Hypothesis Hlat : latent_ok self x lat.

Local Abbreviation Sh := (Shaped W x lat).
Local Abbreviation nf := (PixelCNN.nb_filters self).

Lemma shaped_eq s s' t : Sh s t -> s = s' -> Sh s' t.
Proof. now intros S <-. Qed.

Lemma shaped_pre_activation (units : nat) (tag : string) (v_map : option Tensor)
      (crop : bool) (i : nat) (xW : Tensor) (hh w : nat) :
  Sh (batch x, hh, (if crop then w + 1 else w), units) xW ->
  match v_map with Some v => Sh (batch x, hh, w, units) v | None => True end ->
  Sh (batch x, hh, w, units)
     (pre_activation units tag v_map (latent_input self) crop i xW).
Proof.
  intros SX SV. unfold pre_activation.
  assert (S1 : Sh (batch x, hh, w, units) (cropped crop i xW)).
  { unfold cropped. destruct crop; [|exact SX].
    apply shaped_eq with (1 := shaped_lambda W x lat _ _ _ _ crop_right_fn _ _ SX).
    shape_eq. }
  assert (S2 : Sh (batch x, hh, w, units) (merged_feed v_map i (cropped crop i xW))).
  { unfold merged_feed. destruct v_map; [now apply shaped_add | exact S1]. }
  unfold merged_latent, latent_ok, latent_input in *.
  destruct (PixelCNN.conditional self); [|exact S2].
  destruct lat as [l|] eqn:L; [|contradiction]. destruct Hlat as [Eb Ed].
  apply shaped_lambda_sum; [exact S2|]. rewrite <- Eb, <- L.
  apply shaped_latent_projection with (l := l); [exact L | exact Ed].
Qed.

Lemma shaped_activation_unit (tag : string) (v_map : option Tensor) (crop : bool)
      (i : nat) (xW : Tensor) (hh w : nat) :
  Sh (batch x, hh, (if crop then w + 1 else w), pre_activation_channels self) xW ->
  match v_map with
  | Some v => Sh (batch x, hh, w, pre_activation_channels self) v
  | None => True
  end ->
  Sh (batch x, hh, w, nf) (activation_unit self tag v_map (latent_input self) crop i xW).
Proof.
  unfold activation_unit, pre_activation_channels, gated_unit, relu_unit, gate.
  destruct (PixelCNN.gated self); intros SX SV.
  - pose proof (shaped_pre_activation (2 * nf) tag v_map crop i xW hh w SX SV) as SP.
    apply shaped_multiply.
    + apply shaped_eq with
        (1 := shaped_lambda W x lat _ _ _ _ tanh_fn _ _
                (shaped_lambda W x lat _ _ _ _ (slice_f nf) _ _ SP)).
      shape_eq.
    + apply shaped_eq with
        (1 := shaped_lambda W x lat _ _ _ _ sigmoid_fn _ _
                (shaped_lambda W x lat _ _ _ _ (slice_g nf) _ _ SP)).
      shape_eq.
  - apply shaped_activation. now apply shaped_pre_activation.
Qed.

Lemma pre_activation_channels_pos : 1 <= nf -> 1 <= pre_activation_channels self.
Proof. unfold pre_activation_channels. destruct (PixelCNN.gated self); lia. Qed.

Lemma shaped_masked_vertical filter_size i t hh w c :
  1 <= nf -> 1 <= hh -> 1 <= w ->
  Nat.odd (snd filter_size) = true ->
  Sh (batch x, hh, w, c) t ->
  Sh (batch x, hh, w, pre_activation_channels self) (masked_vertical self filter_size i t).
Proof.
  intros Hf Hh Hw O S. unfold masked_vertical. pose proof (odd_half _ O) as E.
  pose proof (pre_activation_channels_pos Hf) as Hp.
  eapply shaped_eq; [eapply shaped_conv_pad; [exact S | lia ..]|].
  shape_eq.
Qed.

Lemma shaped_feed_projector i t hh w c :
  1 <= nf -> 1 <= hh -> 1 <= w ->
  Sh (batch x, hh, w, c) t ->
  Sh (batch x, hh, w, pre_activation_channels self) (feed_projector self i t).
Proof.
  intros Hf Hh Hw S. unfold feed_projector.
  pose proof (pre_activation_channels_pos Hf) as Hp.
  eapply shaped_conv_1x1; [|lia ..].
  exact (shaped_lambda W x lat _ _ _ _ shift_down_fn _ _ S).
Qed.

Lemma shaped_masked_horizontal_A filter_size i t hh w c :
  1 <= nf -> 1 <= hh -> 2 <= snd filter_size ->
  Sh (batch x, hh, w, c) t ->
  Sh (batch x, hh, w + 1, pre_activation_channels self)
     (masked_horizontal_A self filter_size i t).
Proof.
  intros Hf Hh Hk S. unfold masked_horizontal_A.
  pose proof (pre_activation_channels_pos Hf) as Hp.
  assert (1 <= snd filter_size / 2) by (apply Nat.div_le_lower_bound; lia).
  eapply shaped_eq; [eapply shaped_conv_pad; [exact S | lia ..]|].
  shape_eq.
Qed.

Lemma shaped_masked_horizontal_B filter_size i t hh w c :
  1 <= nf -> 1 <= hh -> 1 <= w ->
  Sh (batch x, hh, w, c) t ->
  Sh (batch x, hh, w, pre_activation_channels self)
     (masked_horizontal_B self filter_size i t).
Proof.
  intros Hf Hh Hw S. unfold masked_horizontal_B.
  pose proof (pre_activation_channels_pos Hf) as Hp.
  eapply shaped_eq; [eapply shaped_conv_pad; [exact S | lia ..]|].
  shape_eq.
Qed.

End GraphShapes.

Section BuiltShapes.

Context {T : Type} `{Scalar T}.
Variable W : Weights T.
Variable x : FeatureMap T.
Variable lat : option (Matrix T).
Variable self : PixelCNN.t.
Hypothesis Hlat : latent_ok self x lat.
Hypothesis Hh : 1 <= height x.
Hypothesis Hw : 1 <= width x.
Hypothesis Hf : 1 <= PixelCNN.nb_filters self.
Hypothesis Odd : Nat.odd (snd (PixelCNN.filter_size self)) = true.

Local Abbreviation Sh := (Shaped W x lat).
Local Abbreviation hl := (latent_input self).
Local Abbreviation stack_shape := (batch x, height x, width x, PixelCNN.nb_filters self).

Lemma shaped_first_layer t c :
  Nat.odd (snd (PixelCNN.filter_size_1st self)) = true ->
  3 <= snd (PixelCNN.filter_size_1st self) ->
  Sh (batch x, height x, width x, c) t ->
  Sh stack_shape (fst (first_layer_graph self hl t)) /\
  Sh stack_shape (snd (first_layer_graph self hl t)).
Proof.
  intros Odd1 Wide1 S. unfold first_layer_graph, projection. cbn [fst snd].
  pose proof (shaped_masked_vertical W x lat self _ 0 t _ _ _ Hf Hh Hw Odd1 S) as SV.
  split.
  - apply (shaped_activation_unit W x lat self Hlat "v" None false); [exact SV | exact I].
  - eapply shaped_conv_1x1; [|assumption ..].
    apply (shaped_activation_unit W x lat self Hlat "h" (Some _) true).
    + eapply shaped_masked_horizontal_A; [exact Hf | exact Hh | lia | exact S].
    + exact (shaped_feed_projector W x lat self 0 _ _ _ _ Hf Hh Hw SV).
Qed.

Lemma shaped_layer i st :
  Sh stack_shape (fst st) -> Sh stack_shape (snd st) ->
  Sh stack_shape (fst (layer_graph self hl i st)) /\
  Sh stack_shape (snd (layer_graph self hl i st)).
Proof.
  intros SV0 SH0. unfold layer_graph, projection. cbn [fst snd].
  pose proof (shaped_masked_vertical W x lat self _ i _ _ _ _ Hf Hh Hw Odd SV0) as SV.
  split.
  - apply (shaped_activation_unit W x lat self Hlat "v" None false); [exact SV | exact I].
  - apply shaped_add; [|exact SH0]. eapply shaped_conv_1x1; [|assumption ..].
    apply (shaped_activation_unit W x lat self Hlat "h" (Some _) false).
    + exact (shaped_masked_horizontal_B W x lat self _ i _ _ _ _ Hf Hh Hw SH0).
    + exact (shaped_feed_projector W x lat self i _ _ _ _ Hf Hh Hw SV).
Qed.

Lemma shaped_layers l : forall st,
  Sh stack_shape (fst st) -> Sh stack_shape (snd st) ->
  Sh stack_shape (fst (layers_graph self hl l st)) /\
  Sh stack_shape (snd (layers_graph self hl l st)).
Proof.
  induction l as [|i l IH]; intros st SV SH; cbn [layers_graph fold_left]; [now split|].
  destruct (shaped_layer i st SV SH) as [SV' SH']. now apply IH.
Qed.

Lemma shaped_graph t c :
  Nat.odd (snd (PixelCNN.filter_size_1st self)) = true ->
  3 <= snd (PixelCNN.filter_size_1st self) ->
  1 <= PixelCNN.nb_channels self ->
  Sh (batch x, height x, width x, c) t ->
  Sh (batch x, height x, width x, PixelCNN.nb_channels self) (graph self hl t).
Proof.
  intros Odd1 Wide1 Hc S. unfold graph, head_graph.
  destruct (shaped_first_layer t c Odd1 Wide1 S) as [SV SH].
  destruct (shaped_layers (range 1 (PixelCNN.nb_pixelcnn_layers self)) _ SV SH) as [_ SG].
  eapply shaped_conv_1x1; [|assumption ..].
  eapply shaped_conv_1x1; [|assumption ..].
  eapply shaped_conv_1x1; [|assumption ..]. exact SG.
Qed.

End BuiltShapes.

(** C7, as the code has it — Shape preservation.  For a first-layer
    kernel of odd width at least 3, later kernels of odd width, at least
    one filter, and an image of the configured height, width and channel
    count, all at least 1 (with a fitting latent vector when the model is
    conditional) and any batch size: the model is built, Keras infers the
    output shape (H, W, C), and the prediction has the shape
    (batch, H, W, C) of the input; in the first layer the horizontal map
    after crop-right and the vertical feed map have the same shape, of the
    input's width.  Kernel heights are free. *)
Theorem shape_preservation {T} `{Scalar T} (W : Weights T) (self : PixelCNN.t) (w : World)
        (x : FeatureMap T) (lat : option (Matrix T)) (batch_size : nat) :
  Nat.odd (snd (PixelCNN.filter_size_1st self)) = true ->
  3 <= snd (PixelCNN.filter_size_1st self) ->
  Nat.odd (snd (PixelCNN.filter_size self)) = true ->
  1 <= PixelCNN.nb_filters self ->
  1 <= height x -> 1 <= width x -> 1 <= channels x ->
  (height x, width x, channels x) =
    (fst (PixelCNN.input_size self), snd (PixelCNN.input_size self),
     PixelCNN.nb_channels self) ->
  latent_ok self x lat ->
  exists self' m y,
    result (PixelCNN.build_model self w) = inr self' /\
    PixelCNN.model self' = Some m /\
    static_shape (outputs m) = Some (height x, width x, channels x) /\
    model_predict W m (model_inputs x lat) batch_size = Some y /\
    shape_of y = shape_of x /\
    exists h_map v_map,
      eval W x lat (cropped true 0
                      (masked_horizontal_A self (PixelCNN.filter_size_1st self) 0
                                           (input_image self))) = Some h_map /\
      eval W x lat (feed_projector self 0
                      (masked_vertical self (PixelCNN.filter_size_1st self) 0
                                       (input_image self))) = Some v_map /\
      shape_of h_map = shape_of v_map /\ width h_map = width x.
Proof.
  intros O1 W1 O2 Hf Hh Hw Hc Ein Hlat. injection Ein as Eh Ew Ec.
  assert (SI : Shaped W x lat (batch x, height x, width x, channels x) (input_image self)).
  { apply shaped_input. unfold input_image. now rewrite <- Eh, <- Ew, <- Ec. }
  assert (SG : Shaped W x lat (batch x, height x, width x, PixelCNN.nb_channels self)
                 (graph self (latent_input self) (input_image self))).
  { eapply shaped_graph; try eassumption. lia. }
  destruct SG as (y & Ey & Sy).
  exists (built_instance self), (built_model self), y.
  split; [apply build_model_result|]. split; [reflexivity|]. split; [|split; [|split]].
  - cbn [built_model outputs]. unfold built_graph.
    rewrite (eval_static_shape W x lat _ y Ey).
    unfold shape_of in Sy. injection Sy as _ Sh Sw Sc. now rewrite Sh, Sw, Sc, Ec.
  - unfold model_predict, built_model, model_inputs, built_graph. cbn [inputs outputs snd].
    unfold latent_ok in Hlat.
    destruct (latent_input self) as [v|] eqn:L, lat as [l|]; try contradiction.
    + destruct Hlat as [Eb _]. rewrite Eb, Nat.eqb_refl. exact Ey.
    + exact Ey.
  - rewrite Sy. unfold shape_of. now rewrite Ec.
  - assert (SA : Shaped W x lat
                   (batch x, height x, width x + 1, pre_activation_channels self)
                   (masked_horizontal_A self (PixelCNN.filter_size_1st self) 0
                                        (input_image self))).
    { eapply shaped_masked_horizontal_A; [exact Hf | exact Hh | lia | exact SI]. }
    pose proof (shaped_lambda W x lat _ _ _ _ crop_right_fn "h_crop_right_0" _ SA) as SC.
    assert (SF : Shaped W x lat (batch x, height x, width x, pre_activation_channels self)
                   (feed_projector self 0
                      (masked_vertical self (PixelCNN.filter_size_1st self) 0
                                       (input_image self)))).
    { eapply shaped_feed_projector; try eassumption.
      eapply shaped_masked_vertical; eassumption. }
    destruct SC as (hm & Ehm & Shm). destruct SF as (vm & Evm & Svm).
    exists hm, vm. split; [exact Ehm|]. split; [exact Evm|].
    unfold shape_of in *. injection Shm as B1 H1 W1' C1. injection Svm as B2 H2 W2 C2.
    split; [|lia]. rewrite B1, H1, W1', C1, B2, H2, W2, C2. shape_eq.
Qed.

Lemma shape_preservation_witness :
  exists y,
    model_predict example_weights (built_model (example_instance true true 2))
                  (model_inputs example_image (Some example_latent)) 1 = Some y /\
    shape_of y = (1, 3, 3, 1).
Proof.
  destruct (shape_preservation example_weights (example_instance true true 2)
              example_world example_image (Some example_latent) 1)
    as (self' & m & y & B & M & _ & P & S & _);
    try reflexivity; try (simpl; lia).
  - simpl. split; reflexivity.
  - rewrite build_model_result in B. injection B as <-.
    injection M as <-. exists y. split; [exact P | exact S].
Defined.

(** C7, as stated, fails for a first-layer kernel of width 1, which is odd
    and at least 1: mask A then asks for a convolution with a kernel of
    width 0, which Keras refuses, and the graph has no value. *)
Lemma shape_preserved_counterexample :
  ~ shape_preserved example_weights example_narrow_instance example_world
      example_image None 1.
Proof.
  intros C.
  destruct C as (self' & m & y & B & M & P & _); try reflexivity.
  rewrite build_model_result in B. injection B as <-. injection M as <-.
  vm_compute in P. discriminate P.
Qed.

(** * Further properties of the builder *)

(** The prediction at a position does not read the input at that position:
    two images of the same shape that agree at every position strictly
    before (r, c) in raster order give the same output at (r, c), whatever
    they hold at (r, c) and after it. *)
Theorem strict_causality {T} `{Scalar T} (W : Weights T) (self self' : PixelCNN.t)
        (w : World) (m : KerasModel) (x x' : FeatureMap T) (lat : option (Matrix T))
        (r c batch_size n k : nat) :
  result (PixelCNN.build_model self w) = inr self' ->
  PixelCNN.model self' = Some m ->
  Agree (before r c) x x' ->
  pixel (model_predict W m (model_inputs x lat) batch_size) n r c k =
  pixel (model_predict W m (model_inputs x' lat) batch_size) n r c k.
Proof.
  intros B M A. rewrite (build_model_model _ _ _ B) in M. injection M as <-.
  apply pixel_agree with (P := upto r c); [|unfold upto; lia].
  now apply predict_agree.
Qed.

Lemma example_images_agree_before :
  Agree (before 1 1) example_image example_image_from_target.
Proof.
  split; [reflexivity|]. intros n r c k _ _ _ _ B. unfold before in B.
  unfold example_image, example_image_from_target. cbn [val].
  destruct (Nat.eqb_spec r 1), (Nat.leb_spec 1 c), (Nat.eqb_spec r 2);
    cbn [andb orb]; try reflexivity; lia.
Defined.

Lemma strict_causality_witness :
  pixel (model_predict example_weights (built_model (example_instance false false 2))
                       (model_inputs example_image None) 1) 0 1 1 0 =
  pixel (model_predict example_weights (built_model (example_instance false false 2))
                       (model_inputs example_image_from_target None) 1) 0 1 1 0.
Proof.
  refine (strict_causality example_weights (example_instance false false 2)
            (built_instance (example_instance false false 2)) example_world
            (built_model (example_instance false false 2))
            example_image example_image_from_target None 1 1 1 0 0 _ _ _).
  - vm_compute; reflexivity.
  - vm_compute; reflexivity.
  - exact example_images_agree_before.
Defined.

(** The prediction at the top-left pixel does not depend on the image at
    all: any two images of the same shape give the same output at (0, 0). *)
Theorem first_pixel_is_constant {T} `{Scalar T} (W : Weights T) (self self' : PixelCNN.t)
        (w : World) (m : KerasModel) (x x' : FeatureMap T) (lat : option (Matrix T))
        (batch_size n k : nat) :
  result (PixelCNN.build_model self w) = inr self' ->
  PixelCNN.model self' = Some m ->
  shape_of x = shape_of x' ->
  pixel (model_predict W m (model_inputs x lat) batch_size) n 0 0 k =
  pixel (model_predict W m (model_inputs x' lat) batch_size) n 0 0 k.
Proof.
  intros B M S. rewrite (build_model_model _ _ _ B) in M. injection M as <-.
  apply pixel_agree with (P := upto 0 0); [|unfold upto; lia].
  apply predict_agree. split; [exact S|]. unfold before. intros; lia.
Qed.

Lemma first_pixel_is_constant_witness :
  pixel (model_predict example_weights (built_model (example_instance true true 2))
                       (model_inputs example_image (Some example_latent)) 1) 0 0 0 0 =
  pixel (model_predict example_weights (built_model (example_instance true true 2))
                       (model_inputs example_other_image (Some example_latent)) 1) 0 0 0 0.
Proof.
  refine (first_pixel_is_constant example_weights (example_instance true true 2)
            (built_instance (example_instance true true 2)) example_world
            (built_model (example_instance true true 2))
            example_image example_other_image (Some example_latent) 1 0 0 _ _ _).
  - vm_compute; reflexivity.
  - vm_compute; reflexivity.
  - reflexivity.
Defined.

(** The vertical stack is causal by rows: if two images agree on all rows
    up to r0, the vertical output of every layer agrees on all rows up to
    r0 (it may read the whole of row r0, which is why it is shifted down
    before it is fed to the horizontal stack). *)
Theorem vertical_stack_rows {T} `{Scalar T} (W : Weights T) (self : PixelCNN.t)
        (h : option Vector) (i : nat) (w : World) (v_stack_out h_stack_out : Tensor)
        (x x' : FeatureMap T) (lat : option (Matrix T)) (r0 : nat) :
  result (stacks_after self h (input_image self) i w) = inr (v_stack_out, h_stack_out) ->
  Agree (rows_upto r0) x x' ->
  AgreeO (rows_upto r0) (eval W x lat v_stack_out) (eval W x' lat v_stack_out).
Proof.
  intros E A.
  rewrite (returns_result _ _ w (stacks_after_returns self h (input_image self) i)) in E.
  assert (RI : Related W lat x x' (before (S r0) 0) (input_image self)).
  { apply related_input. apply Agree_weaken with (2 := A).
    unfold before, rows_upto. intros; lia. }
  destruct (related_first_layer W lat x x' self h (S r0) 0 _ RI) as [RV RH].
  destruct (related_layers W lat x x' self h (S r0) 0 (range 1 (S i)) _ RV RH) as [RV' _].
  injection E as E. rewrite E in RV'. cbn [fst] in RV'.
  apply AgreeO_weaken with (2 := RV'). unfold rows_above, rows_upto. intros; lia.
Qed.

Lemma example_images_agree_rows :
  Agree (rows_upto 0) example_image example_image'.
Proof.
  split; [reflexivity|]. intros n r c k _ _ _ _ B. unfold rows_upto in B.
  unfold example_image, example_image'. cbn [val].
  destruct (Nat.eqb_spec r 1), (Nat.eqb_spec c 2), (Nat.eqb_spec r 2);
    cbn [andb orb]; try reflexivity; lia.
Defined.

Lemma vertical_stack_rows_witness :
  AgreeO (rows_upto 0)
    (eval example_weights example_image None
          (fst (layers_graph (example_instance true false 2) None (range 1 2)
                  (first_layer_graph (example_instance true false 2) None
                     (input_image (example_instance true false 2))))))
    (eval example_weights example_image' None
          (fst (layers_graph (example_instance true false 2) None (range 1 2)
                  (first_layer_graph (example_instance true false 2) None
                     (input_image (example_instance true false 2)))))).
Proof.
  refine (vertical_stack_rows example_weights (example_instance true false 2) None 1
            example_world _
            (snd (layers_graph (example_instance true false 2) None (range 1 2)
                    (first_layer_graph (example_instance true false 2) None
                       (input_image (example_instance true false 2)))))
            example_image example_image' None 0 _ _).
  - vm_compute; reflexivity.
  - exact example_images_agree_rows.
Defined.

(** Every layer's two stack outputs have the input's batch, height and
    width and exactly nb_filters channels, gated or not: for a first-layer
    kernel of odd width at least 3, later kernels of odd width, at least one
    filter and an image of the configured shape with height and width at
    least 1. *)
Theorem stack_outputs_shape {T} `{Scalar T} (W : Weights T) (self : PixelCNN.t)
        (i : nat) (w : World) (x : FeatureMap T) (lat : option (Matrix T)) :
  Nat.odd (snd (PixelCNN.filter_size_1st self)) = true ->
  3 <= snd (PixelCNN.filter_size_1st self) ->
  Nat.odd (snd (PixelCNN.filter_size self)) = true ->
  1 <= PixelCNN.nb_filters self ->
  1 <= height x -> 1 <= width x ->
  (height x, width x, channels x) =
    (fst (PixelCNN.input_size self), snd (PixelCNN.input_size self),
     PixelCNN.nb_channels self) ->
  latent_ok self x lat ->
  exists v_stack_out h_stack_out v h,
    result (stacks_after self (latent_input self) (input_image self) i w) =
      inr (v_stack_out, h_stack_out) /\
    eval W x lat v_stack_out = Some v /\
    eval W x lat h_stack_out = Some h /\
    shape_of v = (batch x, height x, width x, PixelCNN.nb_filters self) /\
    shape_of h = (batch x, height x, width x, PixelCNN.nb_filters self).
Proof.
  intros O1 W1 O2 Hf Hh Hw Ein Hlat. injection Ein as Eh Ew Ec.
  assert (SI : Shaped W x lat (batch x, height x, width x, channels x) (input_image self)).
  { apply shaped_input. unfold input_image. now rewrite <- Eh, <- Ew, <- Ec. }
  assert (S0 : Shaped W x lat (batch x, height x, width x, PixelCNN.nb_filters self)
                 (fst (first_layer_graph self (latent_input self) (input_image self))) /\
               Shaped W x lat (batch x, height x, width x, PixelCNN.nb_filters self)
                 (snd (first_layer_graph self (latent_input self) (input_image self)))).
  { eapply shaped_first_layer; eassumption. }
  destruct S0 as [SV SH].
  assert (SL : Shaped W x lat (batch x, height x, width x, PixelCNN.nb_filters self)
                 (fst (layers_graph self (latent_input self) (range 1 (S i))
                         (first_layer_graph self (latent_input self) (input_image self)))) /\
               Shaped W x lat (batch x, height x, width x, PixelCNN.nb_filters self)
                 (snd (layers_graph self (latent_input self) (range 1 (S i))
                         (first_layer_graph self (latent_input self) (input_image self))))).
  { eapply shaped_layers; eassumption. }
  destruct SL as [(v & Ev & Sv) (h & Eh' & Sh')].
  eexists; eexists; exists v, h. split.
  - rewrite (returns_result _ _ w (stacks_after_returns self _ _ i)).
    apply f_equal. apply surjective_pairing.
  - repeat split; assumption.
Qed.

Lemma stack_outputs_shape_witness :
  exists v_stack_out h_stack_out v h,
    result (stacks_after (example_instance false true 3)
                         (latent_input (example_instance false true 3))
                         (input_image (example_instance false true 3)) 2 example_world) =
      inr (v_stack_out, h_stack_out) /\
    eval example_weights example_image (Some example_latent) v_stack_out = Some v /\
    eval example_weights example_image (Some example_latent) h_stack_out = Some h /\
    shape_of v = (1, 3, 3, 2) /\ shape_of h = (1, 3, 3, 2).
Proof.
  refine (stack_outputs_shape example_weights (example_instance false true 3) 2
            example_world example_image (Some example_latent) _ _ _ _ _ _ _ _).
  - reflexivity.
  - simpl; lia.
  - reflexivity.
  - simpl; lia.
  - simpl; lia.
  - simpl; lia.
  - reflexivity.
  - simpl. split; reflexivity.
Defined.


Lemma eval_without_latent {T} `{Scalar T} (W : Weights T) (x : FeatureMap T)
      (lat lat' : option (Matrix T)) (t : Tensor) :
  reads_latent t = false -> eval W x lat t = eval W x lat' t.
Proof.
  induction t as [s n | s n v | p n t IH | f k a n t IH | f n t IH | n t1 IH1 t2 IH2
                  | n t1 IH1 t2 IH2 | n t1 IH1 t2 IH2 | a n t IH];
    cbn [reads_latent eval]; intros R;
    try (apply orb_false_iff in R; destruct R as [R1 R2]; rewrite (IH1 R1), (IH2 R2));
    try rewrite (IH R); try reflexivity; discriminate.
Qed.

Lemma no_latent_in_unit (self : PixelCNN.t) (tag : string) (v_map : option Tensor)
      (crop : bool) (i : nat) (xW : Tensor) :
  reads_latent xW = false ->
  match v_map with Some v => reads_latent v = false | None => True end ->
  reads_latent (activation_unit self tag v_map None crop i xW) = false.
Proof.
  intros HX HV.
  unfold activation_unit, gated_unit, relu_unit, gate, pre_activation, merged_latent,
    merged_feed, cropped.
  destruct (PixelCNN.gated self), v_map, crop; cbn [reads_latent];
    rewrite ?HX, ?HV; reflexivity.
Qed.

Lemma no_latent_in_layers (self : PixelCNN.t) (l : list nat) : forall st,
  reads_latent (fst st) = false -> reads_latent (snd st) = false ->
  reads_latent (fst (layers_graph self None l st)) = false /\
  reads_latent (snd (layers_graph self None l st)) = false.
Proof.
  induction l as [|i l IH]; intros st RV RH; cbn [layers_graph fold_left]; [now split|].
  apply IH; unfold layer_graph, projection, feed_projector, masked_vertical,
    masked_horizontal_B; cbn [fst snd reads_latent].
  - apply no_latent_in_unit; [exact RV | exact I].
  - rewrite RH, orb_false_r. apply no_latent_in_unit; cbn [reads_latent]; assumption.
Qed.

(** A model built with conditional=False takes the image only: it has no
    latent input and no latent projection in its graph; its prediction for
    an image is the value of that graph, which is the same under every
    latent value given to the evaluation; and a prediction call that passes
    a latent vector beside the image has no result. *)
Theorem unconditional_ignores_latent {T} `{Scalar T} (W : Weights T)
        (self self' : PixelCNN.t) (w : World) (m : KerasModel) (g : Tensor)
        (x : FeatureMap T) (lat : option (Matrix T)) (batch_size : nat) :
  PixelCNN.conditional self = false ->
  result (PixelCNN.build_model self w) = inr self' ->
  PixelCNN.model self' = Some m ->
  PixelCNN.predicted self' = Some g ->
  snd (inputs m) = None /\ outputs m = g /\ reads_latent g = false /\
  model_predict W m (OneInput x) batch_size = eval W x lat g /\
  forall l, model_predict W m (TwoInputs x l) batch_size = None.
Proof.
  intros C B M P. rewrite build_model_result in B. injection B as <-.
  cbn in M, P. injection M as <-. injection P as <-.
  assert (R : reads_latent (built_graph self) = false).
  { unfold built_graph, latent_input. rewrite C. unfold graph, head_graph.
    cbn [reads_latent].
    apply (no_latent_in_layers self (range 1 (PixelCNN.nb_pixelcnn_layers self))).
    - unfold first_layer_graph, masked_vertical. cbn [fst].
      apply no_latent_in_unit; [reflexivity | exact I].
    - unfold first_layer_graph, projection, feed_projector, masked_vertical,
        masked_horizontal_A. cbn [snd reads_latent].
      apply no_latent_in_unit; reflexivity. }
  assert (L : latent_input self = None) by (unfold latent_input; now rewrite C).
  unfold model_predict, built_model. cbn [inputs outputs snd]. rewrite L.
  split; [reflexivity|]. split; [reflexivity|]. split; [exact R|].
  split; [now apply eval_without_latent | reflexivity].
Qed.

Lemma unconditional_ignores_latent_witness :
  model_predict example_weights (built_model (example_instance true false 2))
                (OneInput example_image) 1 =
    eval example_weights example_image (Some example_latent)
         (built_graph (example_instance true false 2)) /\
  model_predict example_weights (built_model (example_instance true false 2))
                (TwoInputs example_image example_latent) 1 = None.
Proof.
  destruct (unconditional_ignores_latent example_weights
              (example_instance true false 2)
              (built_instance (example_instance true false 2)) example_world
              (built_model (example_instance true false 2))
              (built_graph (example_instance true false 2)) example_image
              (Some example_latent) 1) as (_ & _ & _ & P1 & P2).
  - reflexivity.
  - vm_compute; reflexivity.
  - vm_compute; reflexivity.
  - vm_compute; reflexivity.
  - split; [exact P1 | exact (P2 example_latent)].
Defined.



Lemma layers_graph_last (self : PixelCNN.t) (h : option Vector) (l : list nat) (i : nat)
      (st : Tensor * Tensor) :
  layers_graph self h (l ++ [i]) st = layer_graph self h i (layers_graph self h l st).
Proof. now rewrite layers_graph_app. Qed.

(** The graph that build_model returns contains a residual addition (a
    layer h_residual_<i>) exactly when nb_pixelcnn_layers is at least 2. *)
Theorem residual_iff_two_layers (self self' : PixelCNN.t) (w : World) (g : Tensor) :
  result (PixelCNN.build_model self w) = inr self' ->
  PixelCNN.predicted self' = Some g ->
  has_residual_add g = (2 <=? PixelCNN.nb_pixelcnn_layers self).
Proof.
  intros B P. rewrite build_model_result in B. injection B as <-.
  cbn in P. injection P as <-.
  set (h := latent_input self). set (x := input_image self).
  assert (N0 : has_residual_add (snd (first_layer_graph self h x)) = false).
  { unfold first_layer_graph, projection. cbn [snd has_residual_add].
    apply no_residual_in_unit; reflexivity. }
  unfold built_graph. fold h; fold x. unfold graph, head_graph. cbn [has_residual_add].
  destruct (Nat.leb_spec 2 (PixelCNN.nb_pixelcnn_layers self)) as [N|N].
  - assert (E : range 1 (PixelCNN.nb_pixelcnn_layers self) =
                range 1 (PixelCNN.nb_pixelcnn_layers self - 1) ++
                [PixelCNN.nb_pixelcnn_layers self - 1]).
    { rewrite <- range_snoc by lia. f_equal. lia. }
    rewrite E, layers_graph_last. unfold layer_graph. cbn [snd has_residual_add].
    now rewrite prefix_app.
  - unfold range. replace (PixelCNN.nb_pixelcnn_layers self - 1) with 0 by lia.
    exact N0.
Qed.

Lemma residual_iff_two_layers_witness :
  has_residual_add (built_graph (example_instance true false 2)) = true /\
  has_residual_add (built_graph (example_instance true false 1)) = false.
Proof.
  split.
  - apply (residual_iff_two_layers (example_instance true false 2)
             (built_instance (example_instance true false 2)) example_world);
      vm_compute; reflexivity.
  - apply (residual_iff_two_layers (example_instance true false 1)
             (built_instance (example_instance true false 1)) example_world);
      vm_compute; reflexivity.
Defined.

(** In a horizontal call every mask type other than 'A' gives the mask-B
    convolution, which reads the current column. *)
Theorem mask_defaults_to_B (self : PixelCNN.t) (x : Tensor) (kh kw i : nat)
        (mask_type : string) (w : World) :
  mask_type <> "A" ->
  result (PixelCNN._masked_conv self x (kh, kw) "horizontal" i mask_type w) =
    inr (Conv2D (if PixelCNN.gated self then 2 * PixelCNN.nb_filters self
                 else PixelCNN.nb_filters self)
                (1, kw / 2 + 1) None (Some ("h_conv_" ++ str i)%string)
                (ZeroPadding2D ((0, 0), (kw / 2, 0)) (Some ("h_pad_" ++ str i)%string) x)).
Proof.
  intros M. apply String.eqb_neq in M. apply returns_result.
  unfold PixelCNN._masked_conv. cbn [String.eqb Ascii.eqb Bool.eqb]. cbn [fst snd].
  rewrite M. run.
Qed.

Lemma mask_defaults_to_B_witness :
  result (PixelCNN._masked_conv (example_instance true false 1)
            (Input (3, 3, 1) "input_image") (3, 3) "horizontal" 0 "a" example_world) =
    inr (Conv2D 4 (1, 2) None (Some "h_conv_0")
                (ZeroPadding2D ((0, 0), (1, 0)) (Some "h_pad_0")
                               (Input (3, 3, 1) "input_image"))).
Proof.
  apply (mask_defaults_to_B (example_instance true false 1)). discriminate.
Defined.

Lemma even_half (k : nat) : Nat.even k = true -> k = 2 * (k / 2).
Proof.
  intros E. apply Nat.even_spec in E. destruct E as [m E].
  pose proof (Nat.div_mod_eq k 2) as D.
  pose proof (Nat.mod_upper_bound k 2) as B. lia.
Qed.

Lemma bdim_off_by_one (w : nat) : 2 <= w -> bdim w (w + 1) = None.
Proof.
  intros Hw. unfold bdim.
  destruct (Nat.eqb_spec w (w + 1)), (Nat.eqb_spec w 1), (Nat.eqb_spec (w + 1) 1);
    try lia; reflexivity.
Qed.

Lemma requests_call_layer (t : Tensor) : requests (call_layer t) (TensorOp t).
Proof. intros w. cbn. apply in_or_app. right. now left. Qed.

Lemma requests_bind_left {A B} (m : M A) (f : A -> M B) (a : A) (b : B) (op : Op) :
  requests m op -> returns m a -> returns (f a) b -> requests (bind m f) op.
Proof.
  intros Rq Hm Hf w. specialize (Rq w). destruct (Hm w) as [o1 E1].
  destruct (Hf (log w o1)) as [o2 E2].
  unfold bind. rewrite E1 in *. rewrite E2. cbn in *.
  apply in_or_app. now left.
Qed.

Lemma requests_bind_right {A B} (m : M A) (f : A -> M B) (a : A) (op : Op) :
  returns m a -> requests (f a) op -> requests (bind m f) op.
Proof.
  intros Hm Rq w. destruct (Hm w) as [o1 E1]. unfold bind. rewrite E1. apply Rq.
Qed.

Lemma unit_call_requests_merge (self : PixelCNN.t) (s tag : string) (feed : Tensor)
      (h : option Vector) (crop : bool) (xW : Tensor) (i : nat) :
  stack_tag s tag ->
  requests (PixelCNN.unit_call self s (Some feed) h crop xW i)
           (TensorOp (Add ("h_merge_v_" ++ str i) (cropped crop i xW) feed)).
Proof.
  intros Hs.
  assert (E : (if (s =? "vertical")%string then Some "v"
               else if (s =? "horizontal")%string then Some "h" else None) = Some tag)
    by (destruct Hs; reflexivity).
  unfold PixelCNN.unit_call, GatedCNN.__call__, ReLUCNN.__call__, cropped.
  cbv zeta.
  cbn [GatedCNN.stack_name GatedCNN.crop_right GatedCNN.v_map GatedCNN.h
       GatedCNN.nb_filters ReLUCNN.stack_name ReLUCNN.crop_right ReLUCNN.v_map ReLUCNN.h
       ReLUCNN.nb_filters].
  rewrite E.
  destruct (PixelCNN.gated self), crop, h;
    (eapply requests_bind_right; [solve [run] | cbv beta iota];
     eapply requests_bind_left;
       [apply requests_call_layer | apply returns_call_layer | run]).
Qed.

Lemma first_layer_requests_merge (self : PixelCNN.t) (h : option Vector) (x : Tensor) :
  requests (PixelCNN.first_layer self h x)
    (TensorOp (Add "h_merge_v_0"
                 (cropped true 0 (masked_horizontal_A self (PixelCNN.filter_size_1st self) 0 x))
                 (feed_projector self 0
                    (masked_vertical self (PixelCNN.filter_size_1st self) 0 x)))).
Proof.
  unfold PixelCNN.first_layer.
  eapply requests_bind_right; [apply masked_conv_vertical | cbv beta].
  eapply requests_bind_right; [apply feed_v_map_returns | cbv beta].
  eapply requests_bind_right; [apply unit_call_returns, tag_vertical | cbv beta].
  eapply requests_bind_right; [apply masked_conv_horizontal_A | cbv beta].
  eapply requests_bind_left;
    [exact (unit_call_requests_merge self "horizontal" "h" _ h true _ 0 tag_horizontal)
    | apply unit_call_returns, tag_horizontal | run].
Qed.

Lemma build_model_requests_merge (self : PixelCNN.t) :
  requests (PixelCNN.build_model self)
    (TensorOp (Add "h_merge_v_0"
                 (cropped true 0
                    (masked_horizontal_A self (PixelCNN.filter_size_1st self) 0
                                         (input_image self)))
                 (feed_projector self 0
                    (masked_vertical self (PixelCNN.filter_size_1st self) 0
                                     (input_image self))))).
Proof.
  assert (L : forall h,
             requests (PixelCNN._build_layers self (input_image self) h)
               (TensorOp (Add "h_merge_v_0"
                  (cropped true 0
                     (masked_horizontal_A self (PixelCNN.filter_size_1st self) 0
                                          (input_image self)))
                  (feed_projector self 0
                     (masked_vertical self (PixelCNN.filter_size_1st self) 0
                                      (input_image self)))))).
  { intros h. unfold PixelCNN._build_layers. simpl.
    eapply requests_bind_left;
      [apply (first_layer_requests_merge (PixelCNN.set_h self h))
      | apply first_layer_returns |].
    eapply returns_bind; [apply for_each_returns | cbv beta].
    eapply returns_bind; [apply head_returns | cbv beta].
    apply returns_ret. }
  unfold PixelCNN.build_model. fold (input_image self).
  destruct (PixelCNN.conditional self);
    (eapply requests_bind_left;
     [apply L | apply build_layers_returns | apply returns_ret]).
Qed.

Lemma static_conv_pad t h w c filters kh kw act name pt pb pl pr pname :
  static_shape t = Some (h, w, c) -> 1 <= filters -> 1 <= kh -> 1 <= kw ->
  kh <= pt + h + pb -> kw <= pl + w + pr ->
  static_shape (Conv2D filters (kh, kw) act name
                       (ZeroPadding2D ((pt, pb), (pl, pr)) pname t)) =
    Some (pt + h + pb + 1 - kh, pl + w + pr + 1 - kw, filters).
Proof.
  intros E Hf Hkh Hkw Hh Hw. cbn [static_shape]. rewrite E.
  assert (C : (1 <=? filters) && (1 <=? kh) && (1 <=? kw) &&
              (kh <=? pt + h + pb) && (kw <=? pl + w + pr) = true).
  { rewrite !andb_true_iff, !Nat.leb_le. lia. }
  now rewrite C.
Qed.

Lemma static_conv_1x1 t h w c filters act name :
  static_shape t = Some (h, w, c) -> 1 <= filters -> 1 <= h -> 1 <= w ->
  static_shape (Conv2D filters (1, 1) act name t) = Some (h, w, filters).
Proof.
  intros E Hf Hh Hw. cbn [static_shape]. rewrite E.
  assert (C : (1 <=? filters) && (1 <=? 1) && (1 <=? 1) && (1 <=? h) && (1 <=? w) = true).
  { rewrite !andb_true_iff, !Nat.leb_le. lia. }
  rewrite C. f_equal. shape_eq.
Qed.

Lemma static_lambda_eq t s f name :
  static_shape t = Some s -> static_shape (Lambda f name t) = Some (static_lambda f s).
Proof. intros E. cbn [static_shape]. now rewrite E. Qed.

Lemma static_unit_none (self : PixelCNN.t) (tag : string) (v_map : option Tensor)
      (h : option Vector) (crop : bool) (i : nat) (xW : Tensor) :
  static_shape (merged_feed v_map i (cropped crop i xW)) = None ->
  static_shape (activation_unit self tag v_map h crop i xW) = None.
Proof.
  intros E.
  unfold activation_unit, gated_unit, relu_unit, gate, pre_activation, merged_latent.
  destruct (PixelCNN.gated self), h; cbn [static_shape static_broadcast];
    rewrite E; reflexivity.
Qed.

Lemma static_layers_none (self : PixelCNN.t) (h : option Vector) (l : list nat) :
  forall st, static_shape (snd st) = None ->
             static_shape (snd (layers_graph self h l st)) = None.
Proof.
  induction l as [|i l IH]; intros st E; cbn [layers_graph fold_left]; [exact E|].
  apply IH. unfold layer_graph. cbn [snd static_shape]. rewrite E.
  unfold static_broadcast. now destruct (static_shape (projection _ _ _)) as [[[? ?] ?]|].
Qed.

(** An even first-layer kernel width is not usable.  For such a width (at
    least 2), at least one filter and a configured image of height at least
    1 and width at least 2, the build asks for the addition h_merge_v_0 of
    a cropped horizontal map of width W and a vertical feed map of width
    W + 1: Keras infers no shape for that addition (it raises), and none
    for the graph that the model's builder returns. *)
Theorem even_first_kernel_width_fails (self : PixelCNN.t) (w : World) :
  Nat.even (snd (PixelCNN.filter_size_1st self)) = true ->
  2 <= snd (PixelCNN.filter_size_1st self) ->
  1 <= PixelCNN.nb_filters self ->
  1 <= fst (PixelCNN.input_size self) ->
  2 <= snd (PixelCNN.input_size self) ->
  (exists xW feed,
      In (TensorOp (Add "h_merge_v_0" xW feed))
         (layers (world (PixelCNN.build_model self w))) /\
      static_shape xW =
        Some (fst (PixelCNN.input_size self), snd (PixelCNN.input_size self),
              if PixelCNN.gated self then 2 * PixelCNN.nb_filters self
              else PixelCNN.nb_filters self) /\
      static_shape feed =
        Some (fst (PixelCNN.input_size self), snd (PixelCNN.input_size self) + 1,
              if PixelCNN.gated self then 2 * PixelCNN.nb_filters self
              else PixelCNN.nb_filters self) /\
      static_shape (Add "h_merge_v_0" xW feed) = None) /\
  (forall self' g, result (PixelCNN.build_model self w) = inr self' ->
                   PixelCNN.predicted self' = Some g -> static_shape g = None).
Proof.
  intros Ev Hk Hf Hh Hw. pose proof (even_half _ Ev) as Ek.
  set (hh := fst (PixelCNN.input_size self)) in *.
  set (ww := snd (PixelCNN.input_size self)) in *.
  fold (pre_activation_channels self).
  pose proof (pre_activation_channels_pos self Hf) as Hp.
  assert (Hd : 1 <= snd (PixelCNN.filter_size_1st self) / 2)
    by (apply Nat.div_le_lower_bound; lia).
  assert (SI : static_shape (input_image self) = Some (hh, ww, PixelCNN.nb_channels self))
    by reflexivity.
  assert (SX : static_shape
                 (cropped true 0
                    (masked_horizontal_A self (PixelCNN.filter_size_1st self) 0
                                         (input_image self))) =
               Some (hh, ww, pre_activation_channels self)).
  { unfold cropped, masked_horizontal_A.
    erewrite static_lambda_eq; [|apply static_conv_pad with (1 := SI); lia].
    cbn [static_lambda]. f_equal. shape_eq. }
  assert (SF : static_shape
                 (feed_projector self 0
                    (masked_vertical self (PixelCNN.filter_size_1st self) 0
                                     (input_image self))) =
               Some (hh, ww + 1, pre_activation_channels self)).
  { unfold feed_projector, masked_vertical.
    apply static_conv_1x1 with (c := pre_activation_channels self); try lia.
    erewrite static_lambda_eq; [|apply static_conv_pad with (1 := SI); lia].
    cbn [static_lambda]. f_equal. shape_eq. }
  assert (SA : static_shape
                 (Add "h_merge_v_0"
                    (cropped true 0
                       (masked_horizontal_A self (PixelCNN.filter_size_1st self) 0
                                            (input_image self)))
                    (feed_projector self 0
                       (masked_vertical self (PixelCNN.filter_size_1st self) 0
                                        (input_image self)))) = None).
  { cbn [static_shape]. rewrite SX, SF. unfold static_broadcast.
    rewrite bdim_same, bdim_off_by_one by lia. reflexivity. }
  split.
  - eexists; eexists. split; [apply build_model_requests_merge|].
    split; [exact SX|]. split; [exact SF | exact SA].
  - intros self' g B P. rewrite build_model_result in B. injection B as <-.
    cbn in P. injection P as <-.
    unfold built_graph, graph, head_graph. cbn [static_shape].
    rewrite static_layers_none; [reflexivity|].
    unfold first_layer_graph, projection. cbn [snd static_shape].
    rewrite static_unit_none; [reflexivity|]. exact SA.
Qed.

Lemma even_first_kernel_width_fails_witness :
  exists xW feed,
    In (TensorOp (Add "h_merge_v_0" xW feed))
       (layers (world (PixelCNN.build_model example_even_instance example_world))) /\
    static_shape xW = Some (3, 3, 4) /\
    static_shape feed = Some (3, 4, 4) /\
    static_shape (Add "h_merge_v_0" xW feed) = None.
Proof.
  refine (proj1 (even_first_kernel_width_fails example_even_instance example_world
                   _ _ _ _ _)).
  - reflexivity.
  - simpl; lia.
  - simpl; lia.
  - simpl; lia.
  - simpl; lia.
Defined.

Lemma filter_all {A} (p : A -> bool) (l : list A) :
  (forall a, In a l -> p a = true) -> filter p l = l.
Proof.
  induction l as [|a l IH]; intros All; [reflexivity|]. cbn [filter].
  rewrite (All a (or_introl eq_refl)), IH; [reflexivity|].
  intros b I. apply All. now right.
Qed.

Lemma filter_twice {A} (p : A -> bool) (l : list A) : filter p (filter p l) = filter p l.
Proof. apply filter_all. intros a I. now apply filter_In in I. Qed.

(** Constructing a second instance leaves the environment exactly as the
    first construction left it, whatever the arguments of either call: the
    log directory is emptied and made again, nothing else changes.  This
    holds on a filesystem where every entry below ./block_cnn_logs comes with
    the directory itself. *)
Theorem init_twice (kw kw' : PixelCNN.Kw.t) (w : World) :
  (forall p, In p (fs w) -> under "./block_cnn_logs" p = true ->
             In "./block_cnn_logs" (fs w)) ->
  world (PixelCNN.__init__ kw' (world (PixelCNN.__init__ kw w))) =
    world (PixelCNN.__init__ kw w).
Proof.
  set (d := "./block_cnn_logs"). intros Wf.
  assert (Again : forall g : list string,
             filter (fun p => negb (under d p)) (d :: filter (fun p => negb (under d p)) g)
             = filter (fun p => negb (under d p)) g).
  { intros g. cbn [filter]. rewrite under_refl. cbn [negb]. apply filter_twice. }
  assert (Untagged : forall g : list string,
             existsb (String.eqb d) (filter (fun p => negb (String.eqb d p)) g) = false).
  { intros g. destruct (existsb _ _) eqn:X; [|reflexivity].
    apply existsb_exists in X. destruct X as (p & I & E).
    apply filter_In in I. destruct I as [_ I]. now rewrite E in I. }
  rewrite (init_world kw' (world (PixelCNN.__init__ kw w))).
  rewrite (init_world kw w). cbv zeta. fold d.
  destruct (existsb (String.eqb d) (fs w)) eqn:Ex;
    [destruct (existsb (String.eqb d) (files w)) eqn:Fx|];
    cbn [fs image_dim_ordering layers files existsb].
  - now rewrite Ex, Fx.
  - rewrite String.eqb_refl. cbn [orb]. rewrite Untagged, Again, filter_twice.
    reflexivity.
  - rewrite String.eqb_refl. cbn [orb]. rewrite Untagged, filter_twice.
    assert (Clean : filter (fun p => negb (under d p)) (fs w) = fs w).
    { apply filter_all. intros p I. destruct (under d p) eqn:U; [|reflexivity].
      exfalso. specialize (Wf p I U). apply in_existsb in Wf. congruence. }
    cbn [filter]. rewrite under_refl. cbn [negb]. now rewrite Clean.
Qed.

Lemma init_twice_witness :
  world (PixelCNN.__init__ (PixelCNN.Kw.defaults (4, 4))
           (world (PixelCNN.__init__ (PixelCNN.Kw.defaults (8, 8)) example_used_world))) =
    world (PixelCNN.__init__ (PixelCNN.Kw.defaults (8, 8)) example_used_world).
Proof.
  apply init_twice. intros p _ _. simpl. now left.
Defined.

(** ** Layer names *)

Lemma names_ret {A} (a : A) : names_logged (ret a) [].
Proof. intro w. exists a, []. unfold ret. now rewrite log_nil. Qed.

Lemma names_bind {A B} (m : M A) (f : A -> M B) (l1 l2 : list string) :
  names_logged m l1 -> (forall a, names_logged (f a) l2) ->
  names_logged (bind m f) (l1 ++ l2).
Proof.
  intros Hm Hf w. destruct (Hm w) as (a & ops1 & E1 & N1).
  destruct (Hf a (log w ops1)) as (b & ops2 & E2 & N2).
  exists b, (ops1 ++ ops2). unfold bind. rewrite E1, E2, log_log. split; [reflexivity|].
  unfold layer_names in *. now rewrite flat_map_app, N1, N2.
Qed.

Lemma names_call_layer (t : Tensor) (n : option string) :
  tensor_name t = n -> names_logged (call_layer t) (given_name n).
Proof.
  intros <- w. exists t, [TensorOp t]. split; [reflexivity|].
  unfold layer_names. cbn [flat_map op_name]. apply app_nil_r.
Qed.

Lemma names_call_vlayer (v : Vector) (n : string) :
  vector_name v = n -> names_logged (call_vlayer v) [n].
Proof. intros <- w. now exists v, [VectorOp v]. Qed.

Lemma names_read_local {A} (var : string) (a : A) : names_logged (read_local var (Some a)) [].
Proof. apply names_ret. Qed.

Lemma names_eq {A} (m : M A) (l l' : list string) :
  names_logged m l' -> l' = l -> names_logged m l.
Proof. now intros Hm <-. Qed.

Lemma names_bind_returns {A B} (m : M A) (f : A -> M B) (a : A) (l1 l2 : list string) :
  returns m a -> names_logged m l1 -> names_logged (f a) l2 ->
  names_logged (bind m f) (l1 ++ l2).
Proof.
  intros Hr Hm Hf w. destruct (Hr w) as (o1 & E1). destruct (Hm w) as (a2 & o2 & E2 & N).
  assert (Eo : o1 = o2).
  { rewrite E1 in E2.
    assert (Ew : layers (log w o1) = layers (log w o2)) by congruence.
    cbn [log layers] in Ew. now apply app_inv_head in Ew. }
  subst o2. destruct (Hf (log w o1)) as (b & o3 & E3 & N3).
  exists b, (o1 ++ o3). unfold bind. rewrite E1, E3, log_log. split; [reflexivity|].
  unfold layer_names in *. now rewrite flat_map_app, N, N3.
Qed.

Ltac names_run :=
  cbv beta iota;
  repeat lazymatch goal with
    | |- names_logged (bind _ _) _ =>
        eapply names_bind_returns; [ solve [run] | | cbv beta iota ]
    | |- names_logged (ret _) _ => apply names_ret
    | |- names_logged (call_layer _) _ =>
        eapply names_call_layer; cbn [tensor_name]; reflexivity
    | |- names_logged (call_vlayer _) _ =>
        eapply names_call_vlayer; cbn [vector_name]; reflexivity
    | |- names_logged (read_local _ (Some _)) _ => apply names_read_local
    end.

Lemma masked_conv_names (self : PixelCNN.t) (x : Tensor) (filter_size : nat * nat)
      (i : nat) (mask_type : string) :
  names_logged (PixelCNN._masked_conv self x filter_size "vertical" i mask_type)
               (numbered i ["v_pad_"; "v_conv_"]) /\
  names_logged (PixelCNN._masked_conv self x filter_size "horizontal" i mask_type)
               (numbered i ["h_pad_"; "h_conv_"]).
Proof.
  split; unfold PixelCNN._masked_conv; cbn [String.eqb Ascii.eqb Bool.eqb];
    (eapply names_eq;
     [destruct (mask_type =? "A")%string; names_run | reflexivity]).
Qed.

Lemma feed_v_map_names (self : PixelCNN.t) (x : Tensor) (i : nat) :
  names_logged (PixelCNN._feed_v_map self x i) (numbered i ["v_shift_down"; "v_1x1_conv_"]).
Proof.
  unfold PixelCNN._feed_v_map. eapply names_eq; [names_run | reflexivity].
Qed.

Lemma unit_call_names (self : PixelCNN.t) (s tag : string) (v_map : option Tensor)
      (h : option Vector) (crop : bool) (xW : Tensor) (i : nat) :
  stack_tag s tag ->
  names_logged (PixelCNN.unit_call self s v_map h crop xW i)
    (numbered i ((if crop then ["h_crop_right_"] else []) ++
                 (if v_map is Some _ then ["h_merge_v_"] else []) ++
                 unit_stems (PixelCNN.gated self) (if h is Some _ then true else false) tag)).
Proof.
  intros Hs.
  assert (E : (if (s =? "vertical")%string then Some "v"
               else if (s =? "horizontal")%string then Some "h" else None) = Some tag)
    by (destruct Hs; reflexivity).
  unfold PixelCNN.unit_call, GatedCNN.__call__, ReLUCNN.__call__.
  cbv zeta.
  cbn [GatedCNN.stack_name GatedCNN.crop_right GatedCNN.v_map GatedCNN.h
       GatedCNN.nb_filters ReLUCNN.stack_name ReLUCNN.crop_right ReLUCNN.v_map ReLUCNN.h
       ReLUCNN.nb_filters].
  rewrite E.
  destruct (PixelCNN.gated self), crop, v_map, h;
    (eapply names_eq; [names_run | destruct Hs; reflexivity]).
Qed.

Lemma first_layer_names (self : PixelCNN.t) (h : option Vector) (x : Tensor) :
  names_logged (PixelCNN.first_layer self h x)
    (numbered 0 (first_layer_stems (PixelCNN.gated self) (if h is Some _ then true else false))).
Proof.
  unfold PixelCNN.first_layer. eapply names_eq.
  - eapply names_bind; [apply masked_conv_names | intro].
    eapply names_bind; [apply feed_v_map_names | intro].
    eapply names_bind; [apply unit_call_names, tag_vertical | intro].
    eapply names_bind; [apply masked_conv_names | intro].
    eapply names_bind;
      [eapply names_eq; [apply unit_call_names, tag_horizontal | cbv iota; reflexivity]
      | intro].
    names_run.
  - destruct (PixelCNN.gated self), h; reflexivity.
Qed.

Lemma layer_body_names (self : PixelCNN.t) (h : option Vector) (i : nat)
      (st : Tensor * Tensor) :
  names_logged (PixelCNN.layer_body self h i st)
    (numbered i (layer_stems (PixelCNN.gated self) (if h is Some _ then true else false))).
Proof.
  destruct st as [v hs]. unfold PixelCNN.layer_body. eapply names_eq.
  - eapply names_bind; [apply masked_conv_names | intro].
    eapply names_bind; [apply feed_v_map_names | intro].
    eapply names_bind; [apply unit_call_names, tag_vertical | intro].
    eapply names_bind; [apply masked_conv_names | intro].
    eapply names_bind;
      [eapply names_eq; [apply unit_call_names, tag_horizontal | cbv iota; reflexivity]
      | intro].
    names_run.
  - destruct (PixelCNN.gated self), h; reflexivity.
Qed.

Lemma for_each_names (self : PixelCNN.t) (h : option Vector) (l : list nat) :
  forall st,
    names_logged (PixelCNN.for_each l (PixelCNN.layer_body self h) st)
      (flat_map (fun i => numbered i (layer_stems (PixelCNN.gated self)
                                                  (if h is Some _ then true else false))) l).
Proof.
  induction l as [|i l IH]; intros st; cbn [PixelCNN.for_each flat_map].
  - apply names_ret.
  - apply names_bind; [apply layer_body_names | intro; apply IH].
Qed.

Lemma head_names (self : PixelCNN.t) (x : Tensor) :
  names_logged (PixelCNN.head self x)
               (numbered 0 ["penultimate_convs"] ++ numbered 1 ["penultimate_convs"]).
Proof.
  unfold PixelCNN.head. simpl. eapply names_eq; [names_run | reflexivity].
Qed.

Lemma build_layers_names (self : PixelCNN.t) (x : Tensor) (h : option Vector) :
  names_logged (PixelCNN._build_layers self x h)
    (numbered 0 (first_layer_stems (PixelCNN.gated self) (if h is Some _ then true else false)) ++
     flat_map (fun i => numbered i (layer_stems (PixelCNN.gated self)
                                                (if h is Some _ then true else false)))
              (range 1 (PixelCNN.nb_pixelcnn_layers self)) ++
     numbered 0 ["penultimate_convs"] ++ numbered 1 ["penultimate_convs"]).
Proof.
  unfold PixelCNN._build_layers. simpl. eapply names_eq.
  - eapply names_bind; [apply first_layer_names | intro].
    eapply names_bind; [apply for_each_names | intro].
    eapply names_bind; [apply head_names | intro].
    apply names_ret.
  - cbn [PixelCNN.gated PixelCNN.set_h]. now rewrite app_nil_r.
Qed.

Lemma build_model_names (self : PixelCNN.t) :
  names_logged (PixelCNN.build_model self) (built_layer_names self).
Proof.
  unfold PixelCNN.build_model, built_layer_names.
  destruct (PixelCNN.conditional self);
    (eapply names_eq;
     [eapply names_bind; [apply build_layers_names | intro; apply names_ret]
     | now rewrite app_nil_r]).
Qed.

Lemma strip_digits_app (p d : string) :
  strip_digits d = "" -> strip_digits (p ++ d) = strip_digits p.
Proof.
  intros E. induction p as [|c p IH]; cbn [String.append strip_digits]; [exact E|].
  now rewrite IH.
Qed.

Lemma strip_digits_str (i : nat) : strip_digits (str i) = "".
Proof.
  unfold str. generalize (Nat.to_uint i). intros u.
  induction u as [|u IH|u IH|u IH|u IH|u IH|u IH|u IH|u IH|u IH|u IH];
    cbn [NilEmpty.string_of_uint strip_digits]; rewrite ?IH; reflexivity.
Qed.

Lemma str_inj (i j : nat) : str i = str j -> i = j.
Proof.
  intros E. apply DecimalNat.Unsigned.to_uint_inj. unfold str in E.
  apply (f_equal NilEmpty.uint_of_string) in E. rewrite !NilEmpty.usu in E.
  now injection E.
Qed.

Lemma numbered_inj (p q : string) (i j : nat) :
  stem p = true -> stem q = true -> (p ++ str i)%string = (q ++ str j)%string ->
  p = q /\ i = j.
Proof.
  intros Sp Sq E. apply String.eqb_eq in Sp, Sq.
  assert (Epq : p = q).
  { apply (f_equal strip_digits) in E.
    rewrite !strip_digits_app in E by apply strip_digits_str. congruence. }
  subst q. split; [reflexivity|]. apply str_inj. clear Sp Sq.
  induction p as [|c p IH]; cbn [String.append] in E; [exact E|].
  injection E as E. exact (IH E).
Qed.

Lemma not_in_existsb (s : string) (l : list string) :
  existsb (String.eqb s) l = false -> ~ In s l.
Proof.
  intros E I.
  assert (X : existsb (String.eqb s) l = true)
    by (apply existsb_exists; exists s; split; [exact I | apply String.eqb_refl]).
  congruence.
Qed.

Lemma distinct_NoDup (l : list string) : distinct l = true -> NoDup l.
Proof.
  induction l as [|a l IH]; cbn [distinct]; intros D; constructor.
  - apply andb_true_iff in D. destruct D as [D _]. apply negb_true_iff in D.
    now apply not_in_existsb.
  - apply andb_true_iff in D. now apply IH.
Qed.

Lemma in_numbered (n : string) (i : nat) (ps : list string) :
  In n (numbered i ps) -> exists p, In p ps /\ n = (p ++ str i)%string.
Proof.
  unfold numbered. intros I. apply in_map_iff in I. destruct I as (p & E & I).
  exists p. now split.
Qed.

Lemma in_numbered_layers (n : string) (l : list nat) (ps : list string) :
  In n (flat_map (fun i => numbered i ps) l) ->
  exists p i, In p ps /\ In i l /\ n = (p ++ str i)%string.
Proof.
  intros I. apply in_flat_map in I. destruct I as (i & Il & I).
  apply in_numbered in I. destruct I as (p & Ip & E). now exists p, i.
Qed.

Lemma NoDup_numbered (i : nat) (ps : list string) :
  forallb stem ps = true -> distinct ps = true -> NoDup (numbered i ps).
Proof.
  intros S D. apply distinct_NoDup in D. unfold numbered.
  induction D as [|p ps Np D IH]; cbn [map]; constructor.
  - intros I. apply in_map_iff in I. destruct I as (q & E & Iq).
    cbn [forallb] in S. apply andb_true_iff in S. destruct S as [Sp Sq].
    rewrite forallb_forall in Sq.
    destruct (numbered_inj q p i i (Sq q Iq) Sp E) as [-> _]. contradiction.
  - apply IH. cbn [forallb] in S. apply andb_true_iff in S. tauto.
Qed.

Lemma NoDup_numbered_layers (l : list nat) (ps : list string) :
  forallb stem ps = true -> distinct ps = true -> NoDup l ->
  NoDup (flat_map (fun i => numbered i ps) l).
Proof.
  intros S D N. induction N as [|i l Ni N IH]; cbn [flat_map]; [constructor|].
  apply NoDup_app; [now apply NoDup_numbered | exact IH |].
  intros n I1 I2. apply in_numbered in I1. destruct I1 as (p & Ip & ->).
  apply in_numbered_layers in I2. destruct I2 as (q & j & Iq & Ij & E).
  rewrite forallb_forall in S.
  destruct (numbered_inj p q i j (S p Ip) (S q Iq) E) as [_ ->]. contradiction.
Qed.

Lemma stems_ok (g c : bool) :
  forallb stem (first_layer_stems g c ++ layer_stems g c ++ ["penultimate_convs"]) = true /\
  distinct (first_layer_stems g c) = true /\
  distinct (layer_stems g c) = true /\
  existsb (String.eqb "penultimate_convs") (first_layer_stems g c ++ layer_stems g c)
    = false /\
  existsb (String.eqb "input_image")
          (first_layer_stems g c ++ layer_stems g c ++ ["penultimate_convs"]) = false /\
  existsb (String.eqb "latent_vector")
          (first_layer_stems g c ++ layer_stems g c ++ ["penultimate_convs"]) = false /\
  existsb (String.eqb "conv2d_")
          (first_layer_stems g c ++ layer_stems g c ++ ["penultimate_convs"]) = false.
Proof. destruct g, c; vm_compute; repeat split. Qed.

Lemma built_layer_names_stems (self : PixelCNN.t) (n : string) :
  In n (built_layer_names self) ->
  exists p i, In p (first_layer_stems (PixelCNN.gated self) (PixelCNN.conditional self) ++
                    layer_stems (PixelCNN.gated self) (PixelCNN.conditional self) ++
                    ["penultimate_convs"]) /\
              n = (p ++ str i)%string.
Proof.
  unfold built_layer_names. intros I.
  apply in_app_or in I. destruct I as [I|I].
  { apply in_numbered in I. destruct I as (p & Ip & E). exists p, 0.
    split; [apply in_or_app; now left | exact E]. }
  apply in_app_or in I. destruct I as [I|I].
  { apply in_numbered_layers in I. destruct I as (p & i & Ip & _ & E). exists p, i.
    split; [apply in_or_app; right; apply in_or_app; now left | exact E]. }
  apply in_app_or in I. destruct I as [I|I];
    apply in_numbered in I; destruct I as (p & Ip & E);
    [exists p, 0 | exists p, 1];
    (split; [apply in_or_app; right; apply in_or_app; now right | exact E]).
Qed.

Lemma not_a_built_name (self : PixelCNN.t) (n : string) :
  stem n = true ->
  existsb (String.eqb n)
          (first_layer_stems (PixelCNN.gated self) (PixelCNN.conditional self) ++
           layer_stems (PixelCNN.gated self) (PixelCNN.conditional self) ++
           ["penultimate_convs"]) = false ->
  ~ In n (built_layer_names self).
Proof.
  intros Sn Ex I. apply built_layer_names_stems in I. destruct I as (p & i & Ip & E).
  destruct (stems_ok (PixelCNN.gated self) (PixelCNN.conditional self)) as (S & _).
  rewrite forallb_forall in S. specialize (S p Ip).
  apply String.eqb_eq in Sn, S.
  apply (f_equal strip_digits) in E.
  rewrite strip_digits_app in E by apply strip_digits_str.
  rewrite Sn, S in E. subst p. now apply not_in_existsb in Ex.
Qed.

Lemma built_layer_names_NoDup (self : PixelCNN.t) : NoDup (built_layer_names self).
Proof.
  destruct (stems_ok (PixelCNN.gated self) (PixelCNN.conditional self))
    as (S & D1 & D2 & P & _).
  rewrite !forallb_app in S. apply andb_true_iff in S. destruct S as [S1 S].
  apply andb_true_iff in S. destruct S as [S2 S3].
  rewrite existsb_app in P. apply orb_false_iff in P. destruct P as [P1 P2].
  apply not_in_existsb in P1, P2.
  assert (F1 := proj1 (forallb_forall _ _) S1).
  assert (F2 := proj1 (forallb_forall _ _) S2).
  assert (F3 := proj1 (forallb_forall _ _) S3).
  assert (Tail : forall n, In n (numbered 0 ["penultimate_convs"] ++
                                 numbered 1 ["penultimate_convs"]) ->
                           exists k, n = ("penultimate_convs" ++ str k)%string).
  { intros n I. apply in_app_or in I.
    destruct I as [I|I]; apply in_numbered in I; destruct I as (p & [<-|[]] & E); eauto. }
  unfold built_layer_names.
  apply NoDup_app; [now apply NoDup_numbered | apply NoDup_app |].
  - apply NoDup_numbered_layers; [exact S2 | exact D2 | apply seq_NoDup].
  - vm_compute. repeat constructor; simpl; intuition discriminate.
  - intros n I1 I2. apply in_numbered_layers in I1. destruct I1 as (p & i & Ip & _ & ->).
    destruct (Tail _ I2) as (k & E).
    destruct (numbered_inj p "penultimate_convs" i k (F2 p Ip) eq_refl E) as [-> _].
    contradiction.
  - intros n I1 I2. apply in_numbered in I1. destruct I1 as (p & Ip & ->).
    apply in_app_or in I2. destruct I2 as [I2|I2].
    + apply in_numbered_layers in I2. destruct I2 as (q & j & Iq & Ij & E).
      destruct (numbered_inj p q 0 j (F1 p Ip) (F2 q Iq) E) as [_ <-].
      unfold range in Ij. apply in_seq in Ij. lia.
    + destruct (Tail _ I2) as (k & E).
      destruct (numbered_inj p "penultimate_convs" 0 k (F1 p Ip) eq_refl E) as [-> _].
      contradiction.
Qed.

Lemma not_a_numbered_built_name (self : PixelCNN.t) (a : string) (k : nat) :
  stem a = true ->
  existsb (String.eqb a)
          (first_layer_stems (PixelCNN.gated self) (PixelCNN.conditional self) ++
           layer_stems (PixelCNN.gated self) (PixelCNN.conditional self) ++
           ["penultimate_convs"]) = false ->
  ~ In (a ++ str k)%string (built_layer_names self).
Proof.
  intros Sa Ex I. apply built_layer_names_stems in I. destruct I as (p & i & Ip & E).
  destruct (stems_ok (PixelCNN.gated self) (PixelCNN.conditional self)) as (S & _).
  rewrite forallb_forall in S.
  destruct (numbered_inj a p k i Sa (S p Ip) E) as [-> _].
  now apply not_in_existsb in Ex.
Qed.

Lemma layer_names_app (a b : list Op) : layer_names (a ++ b) = layer_names a ++ layer_names b.
Proof. unfold layer_names. apply flat_map_app. Qed.

(** The layers that a build asks Keras to create are distinguishable by
    name (Keras stores and restores the weights of a layer under its name):
    up to any point of the build, the names given by the code are pairwise
    distinct, differ from the names of the two input layers, and differ
    from every automatic name conv2d_<k> that Keras can give to the output
    convolution, which the code leaves unnamed; whatever the number of
    layers, gated or not, conditional or not. *)
Theorem layer_names_unique (self : PixelCNN.t) (w : World) :
  exists ops,
    world (PixelCNN.build_model self w) = log w ops /\
    forall (done rest : list Op) (k : nat),
      ops = done ++ rest ->
      NoDup ("input_image" :: "latent_vector" :: ("conv2d_" ++ str k)%string ::
             layer_names done).
Proof.
  destruct (build_model_names self w) as (self' & ops & E & N).
  exists ops. split; [now rewrite E|]. intros done rest k ->.
  rewrite layer_names_app in N.
  destruct (stems_ok (PixelCNN.gated self) (PixelCNN.conditional self))
    as (_ & _ & _ & _ & I1 & I2 & I3).
  assert (Sub : forall n, In n (layer_names done) -> In n (built_layer_names self)).
  { intros n I. rewrite <- N. apply in_or_app. now left. }
  constructor; [|constructor; [|constructor]].
  - intros [E'|[E'|I]]; [discriminate E' | |].
    + apply (f_equal strip_digits) in E'.
      rewrite strip_digits_app in E' by apply strip_digits_str. discriminate E'.
    + apply Sub in I. revert I. now apply not_a_built_name.
  - intros [E'|I].
    + apply (f_equal strip_digits) in E'.
      rewrite strip_digits_app in E' by apply strip_digits_str. discriminate E'.
    + apply Sub in I. revert I. now apply not_a_built_name.
  - intros I. apply Sub in I. revert I. now apply not_a_numbered_built_name.
  - pose proof (built_layer_names_NoDup self) as ND. rewrite <- N in ND.
    exact (NoDup_app_remove_r _ _ ND).
Qed.
